(** * vimiv: the image widget ([vimiv/image.py])

    A shallow embedding of the [Image] class of vimiv: fit-to-window zoom,
    relative and absolute zoom, navigation in the list of paths
    ([move_index], [move_pos], [show_image]) and the animation timer
    ([update], [play_gif], [pause_gif]).

    Python numbers are modelled exactly: integers as [Z], the results of
    true division and the zoom factor as canonical rationals [Qc], where
    the code computes in binary floating point.  The properties stated
    of the methods are kept to what holds of both: constants the code
    assigns (0, 1, the value before), the quotient or product the code
    forms, written as that quotient or product, and comparisons with the
    size limits, which rounding can only move within one unit in the
    last place of the limit.  None of them uses an identity of the
    rationals that rounding breaks, such as [x * y / y = x]; the
    auxiliary lemma that compares the two scales of the fitting zoom by
    cross products is used only for an image that fits, where one side
    of the image equals the side of the area and the quotients of sizes
    in pixels are far enough apart for rounding to leave the comparison
    as it is.  The theorems that compute on
    concrete inputs only use values on which binary floating point is
    exact as well (small integers, 1/4, 150).

    The object is mutated in place by every method, exceptions leave the
    mutations done so far, and three methods call each other recursively;
    all of that is kept by a state-and-exception monad over one record
    holding the attributes of [Image], of the application object and of
    the collaborators the methods reach through [self.app].

    The functions of [vimiv/fileactions.py] that build the list of paths
    ([populate], [populate_single], [recursive_search]) and test a file
    ([is_image], [is_animation], [is_svg], [edit_supported]) follow, over
    a record standing for the disk and the libraries they call. *)

From Stdlib Require Import ZArith QArith Qcanon String Ascii List Bool Lia.
From Stdlib Require Import Permutation.
Import ListNotations.

Set Implicit Arguments.
Open Scope Z_scope.

(** ** Python values *)

Module Py.

(** Exceptions the modelled code can see. *)
Inductive exn : Type :=
| ZeroDivisionError
| ValueError
| IndexError
| TypeError
| AttributeError
| GLibError.

Definition exn_eqb (a b : exn) : bool :=
  match a, b with
  | ZeroDivisionError, ZeroDivisionError
  | ValueError, ValueError
  | IndexError, IndexError
  | TypeError, TypeError
  | AttributeError, AttributeError
  | GLibError, GLibError => true
  | _, _ => false
  end.

(** Numbers: [Qc] with decidable tests that compute. *)
Definition num := Qc.

Definition of_Z (z : Z) : num := Q2Qc (inject_Z z).
Definition of_pos (p : positive) : num := of_Z (Zpos p).

Definition ltb (x y : num) : bool :=
  (Qnum x * QDen y <? Qnum y * QDen x)%Z.
Definition is_zero (x : num) : bool := (Qnum x =? 0)%Z.

(** [x / y]: true division, [None] standing for ZeroDivisionError. *)
Definition div (x y : num) : option num :=
  if is_zero y then None else Some (x / y)%Qc.

(** [l[i]] with Python's negative indices; [None] is IndexError. *)
Definition getitem {A} (l : list A) (i : Z) : option A :=
  let n := Z.of_nat (length l) in
  if (0 <=? i) && (i <? n) then nth_error l (Z.to_nat i)
  else if (- n <=? i) && (i <? 0) then nth_error l (Z.to_nat (n + i))
  else None.

(** [needle in hay] on strings. *)
Fixpoint contains (needle hay : string) : bool :=
  prefix needle hay ||
  match hay with
  | EmptyString => false
  | String _ rest => contains needle rest
  end.

(** [l.remove(x)]: drops the first occurrence, [None] (ValueError) when
    there is none. *)
Fixpoint remove (x : string) (l : list string) : option (list string) :=
  match l with
  | [] => None
  | y :: t =>
      if String.eqb x y then Some t
      else match remove x t with
           | Some t' => Some (y :: t')
           | None => None
           end
  end.

(** Decimal digits.  [int] and [float] are modelled on the strings for
    which the statements below are made, and agree with Python there: a
    non-empty string of ASCII digits has its value (for [float] exactly
    so below 2^53), and a string with a letter that no number contains
    gives [None], that is ValueError.  On the other strings that Python
    accepts (signs, fractions, exponents, blanks, underscores, "inf",
    "nan") the model gives [None] as well and is not to be relied on:
    no statement is made about them. *)
Definition digit (c : ascii) : option Z :=
  let n := nat_of_ascii c in
  if (48 <=? n)%nat && (n <=? 57)%nat then Some (Z.of_nat (n - 48)) else None.

Fixpoint digits_from (acc : Z) (s : string) : option Z :=
  match s with
  | EmptyString => Some acc
  | String c rest =>
      match digit c with
      | Some d => digits_from (10 * acc + d) rest
      | None => None
      end
  end.

Definition int (s : string) : option Z :=
  match s with
  | EmptyString => None
  | _ => digits_from 0 s
  end.

Definition float (s : string) : option num :=
  option_map of_Z (int s).

(** [random.shuffle(x)]: Fisher-Yates from the last position down to 1,
    [j = randbelow(i + 1)] and swap of [x[i]] and [x[j]].  The generator
    is a list of raw draws; a draw is reduced modulo [i + 1], and an
    exhausted generator keeps drawing 0. *)
Definition setitem {A} (l : list A) (i : nat) (x : A) : list A :=
  firstn i l ++ x :: skipn (S i) l.

Definition swap {A} (l : list A) (i j : nat) : list A :=
  match nth_error l i, nth_error l j with
  | Some a, Some b => setitem (setitem l i b) j a
  | _, _ => l
  end.

Fixpoint shuffle_from {A} (i : nat) (draws : list nat) (l : list A)
  : list A * list nat :=
  match i with
  | O => (l, draws)
  | S i' =>
      let r := hd O draws in
      let l' := swap l i (r mod (S i))%nat in
      shuffle_from i' (tl draws) l'
  end.

Definition shuffle {A} (draws : list nat) (l : list A) : list A * list nat :=
  shuffle_from (length l - 1)%nat draws l.

End Py.

(** ** The objects the methods work on *)

(** What [self.pixbuf_original] can hold: the bare class put there by
    [__init__], a static [Pixbuf] (after [get_static_image]) or a
    [PixbufAnimation] as [new_from_file] returns it.  Sizes of a decoded
    image are at least 1.  An animation carries the answers its iterator
    will give: the successive results of [advance()] (they depend on the
    clock) and the frame delay. *)
Inductive pixbuf : Type :=
| PixbufAnimationClass
| Pixbuf (width height : positive)
| PixbufAnimation (width height : positive) (static : bool)
                  (advances : list bool) (delay : Z).

(** [self.pixbuf_iter]: [None] is the bare class of [__init__]. *)
Record anim_iter : Type := AnimIter {
  advances : list bool;
  delay_time : Z
}.

(** A path on disk as the two library calls of [show_image] see it. *)
Inductive file : Type :=
| NoFile                       (* os.path.exists is False *)
| Unreadable                   (* exists, new_from_file raises GLib.Error *)
| ImageFile (width height : positive) (static : bool)
            (advances : list bool) (delay : Z)
                               (* exists, new_from_file returns the
                                  PixbufAnimation of these data *).

Record state : Type := State {
  (* self.app *)
  paths : list string;
  index : Z;
  (* self.app["thumbnail"] *)
  thumbnail_toggled : bool;
  thumbnail_pos : Z;
  (* self.app["keyhandler"] *)
  num_str : string;
  (* self.app["statusbar"] *)
  messages : list string;
  statusbar_lock : bool;
  info_updates : nat;
  (* self.app["slideshow"] *)
  slideshow_running : bool;
  slideshow_start_index : Z;
  (* Image *)
  animation_toggled : bool;
  user_zoomed : bool;
  overzoom : bool;
  shuffle : bool;
  zoom_percent : Py.num;
  imsize : Z * Z;
  pixbuf_original : pixbuf;
  pixbuf_iter : option anim_iter;
  timer_id : nat;
  (* GLib main loop: the sources not yet removed, the next fresh id *)
  sources : list nat;
  next_source : nat;
  (* the generator behind random.shuffle *)
  rng : list nat
}.

(** What the methods read but never write: the disk, the window geometry
    and [manipulate.delete], a method of another module that [show_image]
    calls on a path that does not exist. *)
Record world : Type := World {
  fs : string -> file;
  window_size : Z * Z;
  library_visible : bool;
  library_width : Z;
  statusbar_hidden : bool;
  separator_margin_top : Z;
  manipulate_delete : state -> state
}.

(** Field updates: one function per attribute the methods assign. *)
Definition set_paths v s :=
  State v (index s) (thumbnail_toggled s) (thumbnail_pos s) (num_str s)
    (messages s) (statusbar_lock s) (info_updates s) (slideshow_running s)
    (slideshow_start_index s) (animation_toggled s) (user_zoomed s)
    (overzoom s) (shuffle s) (zoom_percent s) (imsize s) (pixbuf_original s)
    (pixbuf_iter s) (timer_id s) (sources s) (next_source s) (rng s).
Definition set_index v s :=
  State (paths s) v (thumbnail_toggled s) (thumbnail_pos s) (num_str s)
    (messages s) (statusbar_lock s) (info_updates s) (slideshow_running s)
    (slideshow_start_index s) (animation_toggled s) (user_zoomed s)
    (overzoom s) (shuffle s) (zoom_percent s) (imsize s) (pixbuf_original s)
    (pixbuf_iter s) (timer_id s) (sources s) (next_source s) (rng s).
Definition set_thumbnail_pos v s :=
  State (paths s) (index s) (thumbnail_toggled s) v (num_str s) (messages s)
    (statusbar_lock s) (info_updates s) (slideshow_running s)
    (slideshow_start_index s) (animation_toggled s) (user_zoomed s)
    (overzoom s) (shuffle s) (zoom_percent s) (imsize s) (pixbuf_original s)
    (pixbuf_iter s) (timer_id s) (sources s) (next_source s) (rng s).
Definition set_num_str v s :=
  State (paths s) (index s) (thumbnail_toggled s) (thumbnail_pos s) v
    (messages s) (statusbar_lock s) (info_updates s) (slideshow_running s)
    (slideshow_start_index s) (animation_toggled s) (user_zoomed s)
    (overzoom s) (shuffle s) (zoom_percent s) (imsize s) (pixbuf_original s)
    (pixbuf_iter s) (timer_id s) (sources s) (next_source s) (rng s).
Definition set_messages v s :=
  State (paths s) (index s) (thumbnail_toggled s) (thumbnail_pos s) (num_str
    s) v (statusbar_lock s) (info_updates s) (slideshow_running s)
    (slideshow_start_index s) (animation_toggled s) (user_zoomed s)
    (overzoom s) (shuffle s) (zoom_percent s) (imsize s) (pixbuf_original s)
    (pixbuf_iter s) (timer_id s) (sources s) (next_source s) (rng s).
Definition set_statusbar_lock v s :=
  State (paths s) (index s) (thumbnail_toggled s) (thumbnail_pos s) (num_str
    s) (messages s) v (info_updates s) (slideshow_running s)
    (slideshow_start_index s) (animation_toggled s) (user_zoomed s)
    (overzoom s) (shuffle s) (zoom_percent s) (imsize s) (pixbuf_original s)
    (pixbuf_iter s) (timer_id s) (sources s) (next_source s) (rng s).
Definition set_info_updates v s :=
  State (paths s) (index s) (thumbnail_toggled s) (thumbnail_pos s) (num_str
    s) (messages s) (statusbar_lock s) v (slideshow_running s)
    (slideshow_start_index s) (animation_toggled s) (user_zoomed s)
    (overzoom s) (shuffle s) (zoom_percent s) (imsize s) (pixbuf_original s)
    (pixbuf_iter s) (timer_id s) (sources s) (next_source s) (rng s).
Definition set_user_zoomed v s :=
  State (paths s) (index s) (thumbnail_toggled s) (thumbnail_pos s) (num_str
    s) (messages s) (statusbar_lock s) (info_updates s) (slideshow_running
    s) (slideshow_start_index s) (animation_toggled s) v (overzoom s)
    (shuffle s) (zoom_percent s) (imsize s) (pixbuf_original s) (pixbuf_iter
    s) (timer_id s) (sources s) (next_source s) (rng s).
Definition set_overzoom v s :=
  State (paths s) (index s) (thumbnail_toggled s) (thumbnail_pos s) (num_str
    s) (messages s) (statusbar_lock s) (info_updates s) (slideshow_running
    s) (slideshow_start_index s) (animation_toggled s) (user_zoomed s) v
    (shuffle s) (zoom_percent s) (imsize s) (pixbuf_original s) (pixbuf_iter
    s) (timer_id s) (sources s) (next_source s) (rng s).
Definition set_zoom_percent v s :=
  State (paths s) (index s) (thumbnail_toggled s) (thumbnail_pos s) (num_str
    s) (messages s) (statusbar_lock s) (info_updates s) (slideshow_running
    s) (slideshow_start_index s) (animation_toggled s) (user_zoomed s)
    (overzoom s) (shuffle s) v (imsize s) (pixbuf_original s) (pixbuf_iter
    s) (timer_id s) (sources s) (next_source s) (rng s).
Definition set_imsize v s :=
  State (paths s) (index s) (thumbnail_toggled s) (thumbnail_pos s) (num_str
    s) (messages s) (statusbar_lock s) (info_updates s) (slideshow_running
    s) (slideshow_start_index s) (animation_toggled s) (user_zoomed s)
    (overzoom s) (shuffle s) (zoom_percent s) v (pixbuf_original s)
    (pixbuf_iter s) (timer_id s) (sources s) (next_source s) (rng s).
Definition set_pixbuf_original v s :=
  State (paths s) (index s) (thumbnail_toggled s) (thumbnail_pos s) (num_str
    s) (messages s) (statusbar_lock s) (info_updates s) (slideshow_running
    s) (slideshow_start_index s) (animation_toggled s) (user_zoomed s)
    (overzoom s) (shuffle s) (zoom_percent s) (imsize s) v (pixbuf_iter s)
    (timer_id s) (sources s) (next_source s) (rng s).
Definition set_pixbuf_iter v s :=
  State (paths s) (index s) (thumbnail_toggled s) (thumbnail_pos s) (num_str
    s) (messages s) (statusbar_lock s) (info_updates s) (slideshow_running
    s) (slideshow_start_index s) (animation_toggled s) (user_zoomed s)
    (overzoom s) (shuffle s) (zoom_percent s) (imsize s) (pixbuf_original s)
    v (timer_id s) (sources s) (next_source s) (rng s).
Definition set_timer_id v s :=
  State (paths s) (index s) (thumbnail_toggled s) (thumbnail_pos s) (num_str
    s) (messages s) (statusbar_lock s) (info_updates s) (slideshow_running
    s) (slideshow_start_index s) (animation_toggled s) (user_zoomed s)
    (overzoom s) (shuffle s) (zoom_percent s) (imsize s) (pixbuf_original s)
    (pixbuf_iter s) v (sources s) (next_source s) (rng s).
Definition set_sources v s :=
  State (paths s) (index s) (thumbnail_toggled s) (thumbnail_pos s) (num_str
    s) (messages s) (statusbar_lock s) (info_updates s) (slideshow_running
    s) (slideshow_start_index s) (animation_toggled s) (user_zoomed s)
    (overzoom s) (shuffle s) (zoom_percent s) (imsize s) (pixbuf_original s)
    (pixbuf_iter s) (timer_id s) v (next_source s) (rng s).
Definition set_next_source v s :=
  State (paths s) (index s) (thumbnail_toggled s) (thumbnail_pos s) (num_str
    s) (messages s) (statusbar_lock s) (info_updates s) (slideshow_running
    s) (slideshow_start_index s) (animation_toggled s) (user_zoomed s)
    (overzoom s) (shuffle s) (zoom_percent s) (imsize s) (pixbuf_original s)
    (pixbuf_iter s) (timer_id s) (sources s) v (rng s).
Definition set_rng v s :=
  State (paths s) (index s) (thumbnail_toggled s) (thumbnail_pos s) (num_str
    s) (messages s) (statusbar_lock s) (info_updates s) (slideshow_running
    s) (slideshow_start_index s) (animation_toggled s) (user_zoomed s)
    (overzoom s) (shuffle s) (zoom_percent s) (imsize s) (pixbuf_original s)
    (pixbuf_iter s) (timer_id s) (sources s) (next_source s) v.

(** ** State and exceptions *)

(** A call returns a value, raises, or (for the recursive methods, which
    are defined with a bound on their depth) exhausts that bound.  The
    state comes back in every case: what a method assigned before it
    raised stays assigned. *)
Inductive outcome (A : Type) : Type :=
| Returned (a : A)
| Raised (e : Py.exn)
| OutOfFuel.
Arguments Raised {A} e.
Arguments OutOfFuel {A}.

Definition M (A : Type) : Type := state -> outcome A * state.

Definition ret {A} (a : A) : M A := fun s => (Returned a, s).
Definition raise {A} (e : Py.exn) : M A := fun s => (Raised e, s).
Definition out_of_fuel {A} : M A := fun s => (OutOfFuel, s).

Definition bind {A B} (m : M A) (k : A -> M B) : M B :=
  fun s =>
    match m s with
    | (Returned a, s') => k a s'
    | (Raised e, s') => (Raised e, s')
    | (OutOfFuel, s') => (OutOfFuel, s')
    end.

Declare Scope py_scope.
Delimit Scope py_scope with py.
Notation "x <- m ;; k" := (bind m (fun x => k))
  (at level 61, m at next level, right associativity) : py_scope.
Notation "m ;; k" := (bind m (fun _ => k))
  (at level 61, right associativity) : py_scope.
Open Scope py_scope.

(** [try: m except: h] *)
Definition try_except {A} (m h : M A) : M A :=
  fun s =>
    match m s with
    | (Raised _, s') => h s'
    | r => r
    end.

(** [try: m except E: h] *)
Definition try_except_on {A} (E : Py.exn) (m h : M A) : M A :=
  fun s =>
    match m s with
    | (Raised e, s') => if Py.exn_eqb e E then h s' else (Raised e, s')
    | r => r
    end.

Definition get {A} (f : state -> A) : M A := fun s => (Returned (f s), s).
Definition modify (f : state -> state) : M unit := fun s => (Returned tt, f s).
Definition assign {A} (set : A -> state -> state) (v : A) : M unit :=
  modify (set v).
Definition or_raise {A} (e : Py.exn) (o : option A) : M A :=
  match o with
  | Some a => ret a
  | None => raise e
  end.

Definition nonempty_list {A} (l : list A) : bool :=
  match l with
  | [] => false
  | _ => true
  end.

Definition nonempty (s : string) : bool :=
  match s with
  | EmptyString => false
  | _ => true
  end.

(** ** Collaborators *)

(** Modelled from the spec: [self.app["statusbar"].err_message(msg)], the
    [error(message)] of the status reporter, whose module is not among
    the sources.  The message is appended to the log of what was
    reported. *)
Definition err_message (msg : string) : M unit :=
  modify (fun s => set_messages (messages s ++ [msg]) s).

(** Modelled from the spec: [self.app["statusbar"].update_info()], the
    status update after a navigation or a zoom; the updates are counted. *)
Definition update_info : M unit :=
  modify (fun s => set_info_updates (S (info_updates s)) s).

(** Modelled from the spec: [self.app["keyhandler"].num_clear()]; the
    numeric prefix is consumed and cleared by the operations that read
    it. *)
Definition num_clear : M unit := assign set_num_str EmptyString.

(** [GLib.timeout_add(delay, callback)]: a new source with a fresh id. *)
Definition timeout_add (delay : Z) : M nat :=
  fun s =>
    let id := next_source s in
    (Returned id, set_next_source (S id) (set_sources (sources s ++ [id]) s)).

(** [GLib.source_remove(id)]: the source is gone afterwards; removing an
    id that is not there only logs a warning. *)
Definition source_remove (id : nat) : M unit :=
  modify (fun s =>
    set_sources (filter (fun x => negb (Nat.eqb x id)) (sources s)) s).

(** Width and height of [self.pixbuf_original]; calling the accessor on
    the bare class raises. *)
Definition pixbuf_size : M (positive * positive) :=
  pb <- get pixbuf_original ;;
  match pb with
  | PixbufAnimationClass => raise Py.TypeError
  | Pixbuf w h => ret (w, h)
  | PixbufAnimation w h _ _ _ => ret (w, h)
  end.

(** A method call on [self.pixbuf_iter]. *)
Definition the_iter : M anim_iter :=
  it <- get pixbuf_iter ;; or_raise Py.TypeError it.

(** [self.pixbuf_iter.advance()]: the next answer of the iterator. *)
Definition iter_advance : M bool :=
  it <- the_iter ;;
  match advances it with
  | [] => ret false
  | b :: rest =>
      assign set_pixbuf_iter (Some (AnimIter rest (delay_time it))) ;;
      ret b
  end.

Section Image.

Variable w : world.

(** [Image.check_for_edit]; the result 1 is [true], 0 is [false]. *)
Definition check_for_edit (force : bool) : M bool :=
  ps <- get paths ;;
  match ps with
  | [] => ret false
  | _ =>
      i <- get index ;;
      p <- or_raise Py.IndexError (Py.getitem ps i) ;;
      if Py.contains "EDIT" p && negb force then
        err_message "Image has been edited, add ! to force" ;;
        ret true
      else ret false
  end.

(** [Image.get_zoom_percent_to_fit] *)
Definition get_zoom_percent_to_fit (z_width z_height : bool) : M Py.num :=
  sz <- pixbuf_size ;;
  let pbo_width := Zpos (fst sz) in
  let pbo_height := Zpos (snd sz) in
  pbo_scale <- or_raise Py.ZeroDivisionError
                 (Py.div (Py.of_Z pbo_width) (Py.of_Z pbo_height)) ;;
  im <- get imsize ;;
  w_scale <- or_raise Py.ZeroDivisionError
               (Py.div (Py.of_Z (fst im)) (Py.of_Z (snd im))) ;;
  let stickout := z_width || z_height in
  oz <- get overzoom ;;
  if (pbo_width <? fst im) && (pbo_height <? snd im)
     && negb (stickout || oz) then
    ret (Py.of_Z 1)
  else if (Py.ltb pbo_scale w_scale && negb stickout) || z_height then
    or_raise Py.ZeroDivisionError
      (Py.div (Py.of_Z (snd im)) (Py.of_Z pbo_height))
  else
    or_raise Py.ZeroDivisionError
      (Py.div (Py.of_Z (fst im)) (Py.of_Z pbo_width)).

(** [Image.play_gif] *)
Definition play_gif : M unit :=
  the_iter ;;
  more <- iter_advance ;;
  if more then
    tid <- get timer_id ;;
    source_remove tid ;;
    it <- the_iter ;;
    new <- timeout_add (delay_time it) ;;
    assign set_timer_id new
  else ret tt.

(** [Image.pause_gif] *)
Definition pause_gif : M unit :=
  tid <- get timer_id ;;
  if negb (Nat.eqb tid 0) then
    source_remove tid ;;
    assign set_timer_id O
  else
    the_iter ;; ret tt.

(** The [try] block of [update]: scaling the original to the zoomed
    size.  It raises when the current path cannot be looked up, when the
    file gives no format information, and on an animation, which has no
    [scale_simple] (vector images are not distinguished). *)
Definition scale_image : M unit :=
  ps <- get paths ;;
  i <- get index ;;
  name <- or_raise Py.IndexError (Py.getitem ps i) ;;
  match fs w name with
  | ImageFile _ _ _ _ _ =>
      pb <- get pixbuf_original ;;
      match pb with
      | Pixbuf _ _ => ret tt
      | _ => raise Py.AttributeError
      end
  | _ => raise Py.AttributeError
  end.

(** [Image.update] *)
Definition update (update_info_ update_gif : bool) : M unit :=
  ps <- get paths ;;
  match ps with
  | [] => ret tt
  | _ =>
      pixbuf_size ;;
      try_except scale_image
        (assign set_zoom_percent (Py.of_Z 1) ;;
         if update_gif then
           anim <- get animation_toggled ;;
           if negb anim then
             it <- the_iter ;;
             new <- timeout_add (delay_time it) ;;
             assign set_timer_id new ;;
             play_gif
           else pause_gif
         else ret tt) ;;
      if update_info_ then update_info else ret tt
  end.

(** [Image.get_available_size] *)
Definition get_available_size : Z * Z :=
  let size := window_size w in
  let size :=
    if library_visible w then (fst size - library_width w, snd size)
    else size in
  if negb (statusbar_hidden w) then
    (fst size, snd size - separator_margin_top w - 2)
  else size.

(** The test shared by both zoom methods: is the displayed height out
    of the band [[low, 5 * window width]]? *)
Definition unreasonable (low : Z) : M bool :=
  sz <- pixbuf_size ;;
  zp <- get zoom_percent ;;
  let shown := (Py.of_pos (snd sz) * zp)%Qc in
  ret (Py.ltb shown (Py.of_Z low)
       || Py.ltb (Py.of_Z (fst (window_size w) * 5)) shown).

(** [Image.zoom_delta] *)
Definition zoom_delta (delta : Py.num) : M unit :=
  th <- get thumbnail_toggled ;;
  if th then ret tt
  else
    try_except
      (zp <- get zoom_percent ;;
       assign set_zoom_percent (zp * (Py.of_Z 1 + delta))%Qc ;;
       bad <- unreasonable 50 ;;
       (if bad then raise Py.ValueError else ret tt) ;;
       assign set_user_zoomed true ;;
       update true false)
      (zp <- get zoom_percent ;;
       back <- or_raise Py.ZeroDivisionError
                 (Py.div zp (Py.of_Z 1 + delta)%Qc) ;;
       assign set_zoom_percent back ;;
       err_message "Warning: Object cannot be zoomed (further)").

(** The inner [try] block of [zoom_to]: the percentage typed as a
    numeric prefix. *)
Definition parse_percent (percent : string) : M Py.num :=
  match percent with
  | String "0" rest =>
      f <- or_raise Py.ValueError (Py.float rest) ;;
      or_raise Py.ZeroDivisionError (Py.div (Py.of_Z 1) f)
  | _ => or_raise Py.ValueError (Py.float percent)
  end.

(** [Image.zoom_to]; a [percent] of zero asks for the fitting zoom. *)
Definition zoom_to (percent : Py.num) (z_width z_height : bool) : M unit :=
  th <- get thumbnail_toggled ;;
  if th then ret tt
  else
    before <- get zoom_percent ;;
    assign set_user_zoomed false ;;
    ns <- get num_str ;;
    parsed <-
      (if nonempty ns then
         assign set_user_zoomed true ;;
         try_except
           (p <- parse_percent ns ;; ret (Some p))
           (err_message "Error: Zoom percentage not parseable" ;;
            ret None)
       else ret (Some percent)) ;;
    match parsed with
    | None => ret tt
    | Some percent =>
        (if nonempty ns then assign set_num_str EmptyString else ret tt) ;;
        try_except
          (assign set_imsize get_available_size ;;
           zp <- (if negb (Py.is_zero percent) then ret percent
                  else get_zoom_percent_to_fit z_width z_height) ;;
           assign set_zoom_percent zp ;;
           bad <- unreasonable 5 ;;
           (if bad then
              assign set_zoom_percent before ;; raise Py.ValueError
            else ret tt) ;;
           update true false)
          (err_message "Warning: Object cannot be zoomed (further)")
    end.

(** [Image.toggle_overzoom] *)
Definition toggle_overzoom : M unit :=
  oz <- get overzoom ;; assign set_overzoom (negb oz).


(** *** Navigation

    [show_image] calls [move_pos] when the file cannot be read,
    [move_pos] calls [move_index], and [move_index] calls [show_image].
    Each method is written against the one it calls; [show_image] ties
    the knot with a bound on the depth of the calls. *)

(** [Image.move_index] after its guard: the new index, the reshuffle,
    the call of [show] for [self.show_image], the slideshow message.
    The source compares with [is 0], [is not 0] and [is start_index];
    on the small integers an index or a step is, identity and equality
    agree. *)
Definition navigate_with (show : string -> bool -> M Z)
    (forward key : bool) (delta : Z) : M (option bool) :=
  ns <- get num_str ;;
  delta <- (if key && nonempty ns then
              n <- or_raise Py.ValueError (Py.int ns) ;;
              ret (delta * n)
            else ret delta) ;;
  let delta := if forward then delta else delta * -1 in
  i <- get index ;;
  ps <- get paths ;;
  assign set_index ((i + delta) mod Z.of_nat (length ps)) ;;
  assign set_user_zoomed false ;;
  sh <- get shuffle ;;
  i <- get index ;;
  (if sh && (i =? 0) && (delta >? 0) then
     ps <- get paths ;;
     draws <- get rng ;;
     let r := Py.shuffle draws ps in
     assign set_paths (fst r) ;;
     assign set_rng (snd r)
   else ret tt) ;;
  ps <- get paths ;;
  i <- get index ;;
  path <- or_raise Py.IndexError (Py.getitem ps i) ;;
  returncode <- show path (negb (delta =? 0)) ;;
  running <- get slideshow_running ;;
  (if running && (returncode =? 0) then
     i <- get index ;;
     start <- get slideshow_start_index ;;
     if i =? start then
       assign set_statusbar_lock true ;;
       err_message "Info: back at beginning of slideshow"
     else assign set_statusbar_lock false
   else ret tt) ;;
  num_clear ;;
  ret (Some true).

(** [Image.move_index], calling [show] for [self.show_image].  [None] is
    the bare [return] of the guard. *)
Definition move_index_with (show : string -> bool -> M Z)
    (forward key : bool) (delta : Z) (force : bool) : M (option bool) :=
  ps <- get paths ;;
  th <- get thumbnail_toggled ;;
  if negb (nonempty_list ps) || th then ret None
  else
    edited <- check_for_edit force ;;
    if edited then ret None
    else navigate_with show forward key delta.

(** Modelled from the spec: [self.app.get_pos(force_widget="im")] of
    the application object, whose module is not part of the sources at
    hand.  For the image widget the position is CurrentIndex, the
    0-based index into PathList. *)
Definition get_pos : M Z := get index.

(** [Image.move_pos], calling [move] for [self.move_index]. *)
Definition move_pos_with
    (move : bool -> bool -> Z -> bool -> M (option bool))
    (forward force : bool) : M (option bool) :=
  edited <- try_except
              (e <- check_for_edit force ;;
               if e then raise Py.ValueError else ret false)
              (ret true) ;;
  if edited then ret None
  else
    ps <- get paths ;;
    let max_pos := Z.of_nat (length ps) in
    current <- get_pos ;;
    ns <- get num_str ;;
    pos <- (if nonempty ns then or_raise Py.ValueError (Py.int ns)
            else if forward then ret max_pos
            else ret 1) ;;
    ok <- try_except
            (if (pos <? 0) || (pos >? max_pos) then raise Py.ValueError
             else ret true)
            (err_message "Warning: Unsupported index" ;; ret false) ;;
    if negb ok then ret (Some false)
    else
      let dif := pos - current - 1 in
      th <- get thumbnail_toggled ;;
      (if th then
         let pos := pos - 1 in
         assign set_thumbnail_pos pos
       else
         move true false dif false ;;
         assign set_user_zoomed false) ;;
      num_clear ;;
      ret (Some true).

(** [Image.show_image], calling [retry] for [self.move_pos]. *)
Definition show_image_with (retry : bool -> bool -> M (option bool))
    (path : string) (update_image : bool) : M Z :=
  try_except_on Py.GLibError
    (errorcode <-
       match fs w path with
       | NoFile => modify (manipulate_delete w) ;; ret 1
       | Unreadable => raise Py.GLibError
       | ImageFile wd ht st adv dl =>
           assign set_pixbuf_original (PixbufAnimation wd ht st adv dl) ;;
           ret 0
       end ;;
     pb <- get pixbuf_original ;;
     static <-
       match pb with
       | PixbufAnimationClass => raise Py.TypeError
       | Pixbuf _ _ => raise Py.AttributeError
       | PixbufAnimation _ _ static _ _ => ret static
       end ;;
     (if static then
        sz <- pixbuf_size ;;
        assign set_pixbuf_original (Pixbuf (fst sz) (snd sz)) ;;
        assign set_imsize get_available_size ;;
        zp <- get_zoom_percent_to_fit false false ;;
        assign set_zoom_percent zp
      else
        match pb with
        | PixbufAnimation _ _ _ adv delay =>
            assign set_pixbuf_iter (Some (AnimIter adv delay))
        | _ => ret tt
        end ;;
        assign set_zoom_percent (Py.of_Z 1)) ;;
     tid <- get timer_id ;;
     (if negb (Nat.eqb tid 0) then pause_gif else ret tt) ;;
     update update_image true ;;
     ret errorcode)
    (ps <- get paths ;;
     ps' <- or_raise Py.ValueError (Py.remove path ps) ;;
     assign set_paths ps' ;;
     err_message "Error: file not accessible" ;;
     retry false false ;;
     ret 1).

Fixpoint show_image (fuel : nat) (path : string) (update_image : bool)
  : M Z :=
  match fuel with
  | O => out_of_fuel
  | S fuel' =>
      show_image_with
        (move_pos_with (move_index_with (show_image fuel')))
        path update_image
  end.

Definition move_index (fuel : nat) :=
  move_index_with (show_image fuel).

Definition move_pos (fuel : nat) :=
  move_pos_with (move_index fuel).

End Image.

(** ** Notions used in the statements *)

(** The state in which [move_index] calls [show_image], for an effective
    step [delta]: index moved modulo the length, [user_zoomed] reset, the
    list reshuffled when the step is forward and lands on 0. *)
Definition landed (delta : Z) (s : state) : state :=
  let i := (index s + delta) mod Z.of_nat (length (paths s)) in
  let s1 := set_user_zoomed false (set_index i s) in
  if shuffle s && (i =? 0) && (delta >? 0) then
    let r := Py.shuffle (rng s) (paths s) in
    set_rng (snd r) (set_paths (fst r) s1)
  else s1.

(** What [move_index] does once [show_image] has returned. *)
Definition finish_move (returncode : Z) : M (option bool) :=
  running <- get slideshow_running ;;
  (if running && (returncode =? 0) then
     i <- get index ;;
     start <- get slideshow_start_index ;;
     if i =? start then
       assign set_statusbar_lock true ;;
       err_message "Info: back at beginning of slideshow"
     else assign set_statusbar_lock false
   else ret tt) ;;
  num_clear ;;
  ret (Some true).

(** A list without its entry at position [i]. *)
Definition without {A} (i : nat) (l : list A) : list A :=
  firstn i l ++ skipn (S i) l.

(** The part of the state that navigation is about. *)
Definition nav (s : state) :=
  (paths s, index s, thumbnail_toggled s, num_str s, messages s,
   (shuffle s, rng s, slideshow_running s, slideshow_start_index s,
    statusbar_lock s)).

(** A computation that leaves that part alone, comes back within its
    bound, and does not raise GLib.Error. *)
Definition quiet {A} (m : M A) : Prop :=
  forall s,
    nav (snd (m s)) = nav s
    /\ fst (m s) <> OutOfFuel
    /\ fst (m s) <> Raised Py.GLibError.

(** A computation that comes back within its bound and does not raise
    GLib.Error, whatever it does to the state. *)
Definition calm {A} (m : M A) : Prop :=
  forall s, fst (m s) <> OutOfFuel /\ fst (m s) <> Raised Py.GLibError.

(** The path does not carry the marker [check_for_edit] looks for. *)
Definition unmarked (p : string) : bool := negb (Py.contains "EDIT" p).

(** The file at a path decodes. *)
Definition readable (w : world) (p : string) : bool :=
  match fs w p with
  | ImageFile _ _ _ _ _ => true
  | _ => false
  end.

(** A computation that leaves an observation [f] of the state alone,
    however it ends. *)
Definition keeps {X A} (f : state -> X) (m : M A) : Prop :=
  forall s, f (snd (m s)) = f s.

(** A computation that returns normally from every state. *)
Definition returns {A} (m : M A) : Prop :=
  forall s, exists a, fst (m s) = Returned a.

(** The animation as the main loop sees it: the scheduled callbacks, the
    id the widget remembers, the iterator. *)
Definition playback (s : state) :=
  (sources s, timer_id s, next_source s, pixbuf_iter s).

(** One callback is scheduled, and it is the one [timer_id] names. *)
Definition one_timer (s : state) : Prop :=
  sources s = [timer_id s] /\ (timer_id s < next_source s)%nat
  /\ timer_id s <> O.

(** No callback is scheduled and the widget knows it. *)
Definition no_timer (s : state) : Prop :=
  sources s = [] /\ timer_id s = O.


(** The state after the step of [show_image] that stops a running
    animation. *)
Definition stopped (s : state) : state :=
  if Nat.eqb (timer_id s) 0 then s else set_timer_id O (set_sources [] s).

(** The state in which [show_image] has loaded a static picture of the
    given size and is about to compute the fitting zoom. *)
Definition loaded_static (w : world) (wd ht : positive) (st : bool)
    (adv : list bool) (dl : Z) (s : state) : state :=
  set_imsize (get_available_size w)
    (set_pixbuf_original (Pixbuf wd ht)
       (set_pixbuf_original (PixbufAnimation wd ht st adv dl) s)).


(** The position [move_pos] aims at: the number typed, else the end of
    the list when moving forward and 1 when moving backward.  [None]
    stands for a prefix that [int] does not accept. *)
Definition target_position (forward : bool) (s : state) : option Z :=
  if nonempty (num_str s) then Py.int (num_str s)
  else Some (if forward then Z.of_nat (length (paths s)) else 1).

(** * File actions ([vimiv/fileactions.py])

    The functions that build the list of paths the image widget walks
    through.  They reach the disk through [os.path], [os.walk], the
    directory listing of [vimiv.helpers] and [GdkPixbuf]; these are
    gathered in one record, and the definitions and theorems are stated
    for an arbitrary such record. *)

Module Os.

(** Exceptions the functions of [fileactions] can see. *)
Inductive exn : Type :=
| UnicodeEncodeError
| AttributeError
| IndexError
| ValueError.

Definition exn_eqb (a b : exn) : bool :=
  match a, b with
  | UnicodeEncodeError, UnicodeEncodeError
  | AttributeError, AttributeError
  | IndexError, IndexError
  | ValueError, ValueError => true
  | _, _ => false
  end.

(** These functions keep no state of their own: a call returns a value
    or raises. *)
Inductive result (A : Type) : Type :=
| Ok (a : A)
| Raise (e : exn).
Arguments Raise {A} e.

Definition ret {A} (a : A) : result A := Ok a.

Definition bind {A B} (m : result A) (k : A -> result B) : result B :=
  match m with
  | Ok a => k a
  | Raise e => Raise e
  end.

(** [try: m except E: h] *)
Definition try_except_on {A} (E : exn) (m h : result A) : result A :=
  match m with
  | Raise e => if exn_eqb e E then h else Raise e
  | r => r
  end.

Definition or_raise {A} (e : exn) (o : option A) : result A :=
  match o with
  | Some a => Ok a
  | None => Raise e
  end.

(** A [GdkPixbuf.PixbufFormat]; only [get_extensions()] is asked of it. *)
Record format : Type := Format { get_extensions : list string }.

(** What [GdkPixbuf.Pixbuf.get_file_info] does with a name: it finds a
    format or [None], or the name cannot be encoded for the call. *)
Inductive probe : Type :=
| Info (info : option format)
| Unencodable.

(** The disk and the libraries.  [walk] lists the triples
    [(root, dirs, files)] that [os.walk] yields.  [listdir_wrapper] is
    imported from [vimiv.helpers], which lies outside the files at hand:
    nothing is assumed of it but that it gives the names found in a
    directory. *)
Record t : Type := Make {
  abspath : string -> string;
  expanduser : string -> string;
  isfile : string -> bool;
  isdir : string -> bool;
  walk : string -> list (string * list string * list string);
  listdir_wrapper : string -> list string;
  file_info : string -> probe
}.

(** [GdkPixbuf.Pixbuf.get_file_info(name)[0]]; the one exception the
    callers provide for is UnicodeEncodeError. *)
Definition get_file_info (os : t) (name : string) : result (option format) :=
  match file_info os name with
  | Info info => Ok info
  | Unencodable => Raise UnicodeEncodeError
  end.

Definition is_sep (c : ascii) : bool := Ascii.eqb c "/"%char.

Fixpoint endswith_sep (s : string) : bool :=
  match s with
  | EmptyString => false
  | String c EmptyString => is_sep c
  | String _ rest => endswith_sep rest
  end.

(** [os.path.join(a, b)] of [posixpath]. *)
Definition join (a b : string) : string :=
  if prefix "/" b then b
  else if negb (nonempty a) || endswith_sep a then (a ++ b)%string
  else (a ++ "/" ++ b)%string.

Fixpoint has_sep (s : string) : bool :=
  match s with
  | EmptyString => false
  | String c rest => is_sep c || has_sep rest
  end.

(** [p[:p.rfind('/') + 1]] *)
Fixpoint upto_last_sep (p : string) : string :=
  match p with
  | EmptyString => EmptyString
  | String c rest =>
      if is_sep c || has_sep rest then String c (upto_last_sep rest)
      else EmptyString
  end.

Fixpoint all_sep (s : string) : bool :=
  match s with
  | EmptyString => true
  | String c rest => is_sep c && all_sep rest
  end.

(** [s.rstrip('/')] *)
Fixpoint rstrip_sep (s : string) : string :=
  match s with
  | EmptyString => EmptyString
  | String c rest =>
      let r := rstrip_sep rest in
      if is_sep c && negb (nonempty r) then EmptyString else String c r
  end.

(** [os.path.dirname(p)] of [posixpath]. *)
Definition dirname (p : string) : string :=
  let head := upto_last_sep p in
  if nonempty head && negb (all_sep head) then rstrip_sep head else head.

(** [x in l] and [l.index(x)] on a list of strings; [None] is
    ValueError. *)
Definition list_in (x : string) (l : list string) : bool :=
  existsb (String.eqb x) l.

Fixpoint list_index (x : string) (l : list string) : option nat :=
  match l with
  | [] => None
  | y :: t => if String.eqb y x then Some O else option_map S (list_index x t)
  end.

(** [sorted(l)] on strings: the order of code points, which is also the
    order of their UTF-8 bytes. *)
Fixpoint insort (x : string) (l : list string) : list string :=
  match l with
  | [] => [x]
  | y :: t => if String.leb x y then x :: l else y :: insort x t
  end.

Definition sorted (l : list string) : list string :=
  fold_right insort [] l.

End Os.

Declare Scope os_scope.
Delimit Scope os_scope with os.
Notation "x <- m ;; k" := (Os.bind m (fun x => k))
  (at level 61, m at next level, right associativity) : os_scope.

Section Fileactions.

Variable os : Os.t.

Local Open Scope os_scope.

(** [recursive_search]: the generator, as the list of what it yields. *)
Definition recursive_search (directory : string) : list string :=
  flat_map (fun triple : string * list string * list string =>
              let '(root, _, files) := triple in
              map (fun fil => Os.join root fil) files)
           (Os.walk os directory).

Definition populate_single (arg : string) (recursive : bool) : list string :=
  if Os.isfile os arg then
    let directory := Os.dirname arg in
    let directory := if nonempty directory then directory else "./"%string in
    let paths := Os.listdir_wrapper os directory in
    map (fun path => Os.join directory path) paths
  else if Os.isdir os arg && recursive then
    Os.sorted (recursive_search arg)
  else [].

Definition is_image (filename : string) : Os.result bool :=
  Os.try_except_on Os.UnicodeEncodeError
    (let complete_name := Os.abspath os (Os.expanduser os filename) in
     info <- Os.get_file_info os complete_name ;;
     Os.ret (match info with Some _ => true | None => false end))
    (Os.ret false).

Definition is_animation (filename : string) : Os.result bool :=
  let complete_name := Os.abspath os (Os.expanduser os filename) in
  info <- Os.get_file_info os complete_name ;;
  match info with
  | None => Os.ret false
  | Some info => Os.ret (Os.list_in "gif" (Os.get_extensions info))
  end.

Definition is_svg (filename : string) : Os.result bool :=
  let complete_name := Os.abspath os (Os.expanduser os filename) in
  info <- Os.get_file_info os complete_name ;;
  match info with
  | Some info => Os.ret (Os.list_in "svg" (Os.get_extensions info))
  | None => Os.ret false
  end.

Definition edit_supported (filename : string) : Os.result bool :=
  let complete_name := Os.abspath os (Os.expanduser os filename) in
  info <- Os.get_file_info os complete_name ;;
  info <- Os.or_raise Os.AttributeError info ;;
  extension <- Os.or_raise Os.IndexError (hd_error (Os.get_extensions info)) ;;
  if Os.list_in extension ["jpeg"; "png"; "tiff"; "ico"; "bmp"]%string
  then Os.ret true
  else Os.ret false.

(** The loop of [populate] over its arguments: a file is appended, a
    directory (when [recursive]) replaces what has been gathered. *)
Definition add_everything (recursive : bool) (args paths : list string)
  : list string :=
  fold_left
    (fun paths arg =>
       let path := Os.abspath os arg in
       if Os.isfile os path then paths ++ [path]
       else if Os.isdir os path && recursive then recursive_search path
       else paths)
    args paths.

(** [[p for p in paths if is_image(p)]] *)
Fixpoint remove_unsupported (paths : list string) : Os.result (list string) :=
  match paths with
  | [] => Os.ret []
  | possible_path :: rest =>
      keep <- is_image possible_path ;;
      rest <- remove_unsupported rest ;;
      Os.ret (if keep then possible_path :: rest else rest)
  end.

(** [populate]; the draws of the random generator come in and what is
    left of them goes out with the result. *)
Definition populate (draws : list nat) (args : list string)
    (recursive shuffle_paths expand_single : bool)
  : Os.result (list string * nat * list nat) :=
  let first_path := option_map (Os.abspath os) (hd_error args) in
  let args :=
    match first_path with
    | Some first_path =>
        if Nat.eqb (length args) 1 && expand_single
        then populate_single first_path recursive
        else args
    | None => args
    end in
  let paths := add_everything recursive args [] in
  paths <- remove_unsupported paths ;;
  index <- match first_path with
           | Some first_path =>
               if Os.list_in first_path paths
               then Os.or_raise Os.ValueError (Os.list_index first_path paths)
               else Os.ret O
           | None => Os.ret O
           end ;;
  let '(paths, draws) :=
    if shuffle_paths then Py.shuffle draws paths else (paths, draws) in
  Os.ret (paths, index, draws).

End Fileactions.

(** [is_image] as a test: the answer it gives. *)
Definition supported (os : Os.t) (filename : string) : bool :=
  match is_image os filename with
  | Os.Ok b => b
  | Os.Raise _ => false
  end.




(** The step [move_index] takes: [delta], multiplied by the number typed
    when [key] is set and a number was typed, negated when not
    [forward].  [None] stands for a prefix [int] does not accept. *)
Definition effective_step (forward key : bool) (delta : Z) (s : state)
  : option Z :=
  option_map (fun d => if forward then d else d * -1)
    (if key && nonempty (num_str s)
     then option_map (Z.mul delta) (Py.int (num_str s))
     else Some delta).


(** ** Concrete sessions

    A small disk and a few states of the viewer, used to run the methods. *)

Module Demo.

Open Scope string_scope.

(** A static photo, a small static icon, a three-frame animation, two
    files that exist but cannot be decoded; every other path is absent. *)
Definition disk (p : string) : file :=
  if String.eqb p "a.jpg" then
    ImageFile 800 600 true [] (-1)
  else if String.eqb p "b.png" then
    ImageFile 100 100 true [] (-1)
  else if String.eqb p "EDIT.png" then
    ImageFile 100 100 true [] (-1)
  else if String.eqb p "c.gif" then
    ImageFile 64 64 false [true; true; true] 100
  else if String.eqb p "x.jpg" then Unreadable
  else if String.eqb p "y.jpg" then Unreadable
  else NoFile.

(** An 800x600 window, no library pane, statusbar hidden. *)
Definition desk : world :=
  World disk (800, 600) false 0 true 0 (fun s => s).

(** The viewer right after [__init__], on a given list of paths. *)
Definition fresh (ps : list string) (i : Z) : state :=
  State ps i false 0 "" [] false 0 false 0
        false false false false (Py.of_Z 1) (0, 0)
        PixbufAnimationClass None 0 [] 1 [].

(** The viewer showing the 100x100 icon in an image area of 100x200. *)
Definition icon_shown : state :=
  set_imsize (100, 200)
    (set_pixbuf_original (Pixbuf 100 100) (fresh ["a.jpg"; "b.png"] 1)).

(** The viewer on the animation, before any timer was started. *)
Definition gif_loaded : state :=
  set_pixbuf_iter (Some (AnimIter [true; true; true] 100))
    (set_pixbuf_original (PixbufAnimation 64 64 false [true; true; true] 100)
       (fresh ["a.jpg"; "b.png"; "c.gif"] 2)).


(** Three pictures, the first one current, and "0" typed as position. *)
Definition position_zero : state :=
  set_num_str "0" (fresh ["a.jpg"; "b.png"; "c.gif"] 0).

(** Thumbnail mode on, the current path carrying the marker. *)
Definition in_thumbnail_mode : state :=
  State ["EDIT.png"; "b.png"] 0 true 0 "" [] false 0 false 0
        false false false false (Py.of_Z 1) (0, 0)
        PixbufAnimationClass None 0 [] 1 [].

(** Two pictures, the second one with "EDIT" in its name. *)
Definition marker_ahead : state := fresh ["a.jpg"; "EDIT.png"] 0.


(** Three pictures, the one after the current one unreadable. *)
Definition gap_ahead : state := fresh ["a.jpg"; "x.jpg"; "b.png"] 0.



(** A window two pixels high with the statusbar shown: the image area
    is left without height. *)
Definition squeezed : world :=
  World disk (800, 2) false 0 false 0 (fun s => s).

(** Two pictures, the last one current and unreadable. *)
Definition last_gone : state := fresh ["a.jpg"; "x.jpg"] 1.

(** One picture, unreadable. *)
Definition only_gone : state := fresh ["x.jpg"] 0.


(** The same after [update] has started the playback once. *)
Definition gif_playing : state :=
  Eval vm_compute in snd (update desk true true gif_loaded).

(** A home directory with two pictures, a text file and a subdirectory
    holding one more picture; one name that cannot be encoded. *)
Definition home : Os.t :=
  Os.Make
    (fun p => if prefix "/" p then p else "/home/u/" ++ p)
    (fun p => p)
    (fun p => Os.list_in p ["/home/u/a.jpg"; "/home/u/b.gif";
                            "/home/u/notes.txt"; "/home/u/pics/c.png"])
    (fun p => Os.list_in p ["/home/u"; "/home/u/pics"])
    (fun d =>
       if String.eqb d "/home/u/pics" then [("/home/u/pics", [], ["c.png"])]
       else if String.eqb d "/home/u" then
         [("/home/u", ["pics"], ["a.jpg"; "b.gif"; "notes.txt"]);
          ("/home/u/pics", [], ["c.png"])]
       else [])
    (fun d =>
       if String.eqb d "/home/u" then ["a.jpg"; "b.gif"; "notes.txt"; "pics"]
       else if String.eqb d "/home/u/pics" then ["c.png"]
       else [])
    (fun p =>
       if String.eqb p "/home/u/a.jpg"
       then Os.Info (Some (Os.Format ["jpeg"; "jpe"; "jpg"]))
       else if String.eqb p "/home/u/b.gif"
       then Os.Info (Some (Os.Format ["gif"]))
       else if String.eqb p "/home/u/pics/c.png"
       then Os.Info (Some (Os.Format ["png"]))
       else if String.eqb p "/home/u/odd"
       then Os.Unencodable
       else Os.Info None).

End Demo.

(** ** Arithmetic of the number model *)

Section Numbers.

Lemma of_Z_this (z : Z) : (Py.of_Z z : Q) == inject_Z z.
Proof. exact (Qred_correct (inject_Z z)). Qed.

Lemma is_zero_iff (x : Py.num) : Py.is_zero x = true <-> x = 0%Qc.
Proof.
  unfold Py.is_zero. rewrite Z.eqb_eq. split.
  - intros H. apply Qc_is_canon. unfold Qeq. simpl. rewrite H. reflexivity.
  - intros ->. reflexivity.
Qed.

Lemma of_Z_eq_0 (z : Z) : Py.of_Z z = 0%Qc <-> z = 0.
Proof.
  split.
  - intros H.
    assert (E : (Py.of_Z z : Q) == 0) by (rewrite H; reflexivity).
    rewrite of_Z_this in E. unfold Qeq in E. simpl in E. lia.
  - intros ->. apply Qc_is_canon. reflexivity.
Qed.

Lemma is_zero_of_Z (z : Z) : Py.is_zero (Py.of_Z z) = (z =? 0).
Proof.
  destruct (Z.eqb_spec z 0) as [->|N].
  - reflexivity.
  - destruct (Py.is_zero (Py.of_Z z)) eqn:E; [|reflexivity].
    apply is_zero_iff, of_Z_eq_0 in E. contradiction.
Qed.

Lemma div_of_Z (a b : Z) :
  b <> 0 -> Py.div (Py.of_Z a) (Py.of_Z b) = Some (Py.of_Z a / Py.of_Z b)%Qc.
Proof.
  intros N. unfold Py.div. rewrite is_zero_of_Z.
  destruct (Z.eqb_spec b 0); [contradiction|reflexivity].
Qed.

Lemma ltb_lt (x y : Py.num) : Py.ltb x y = true <-> (x < y)%Qc.
Proof. unfold Py.ltb, Qclt, Qlt. apply Z.ltb_lt. Qed.

Lemma quotient_this (a : Z) (b : positive) :
  ((Py.of_Z a / Py.of_Z (Zpos b))%Qc : Q) == a # b.
Proof.
  unfold Qcdiv, Qcmult, Qcinv. cbn [this Q2Qc].
  rewrite !Qred_correct, !of_Z_this, Qmake_Qdiv. reflexivity.
Qed.

Lemma quotient_lt (a c : Z) (b d : positive) :
  (Py.of_Z a / Py.of_Z (Zpos b) < Py.of_Z c / Py.of_Z (Zpos d))%Qc
  <-> a * Zpos d < c * Zpos b.
Proof.
  unfold Qclt. rewrite !quotient_this. unfold Qlt. simpl. reflexivity.
Qed.

Lemma quotient_self (b : positive) :
  (Py.of_Z (Zpos b) / Py.of_Z (Zpos b))%Qc = Py.of_Z 1.
Proof.
  apply Qc_is_canon. rewrite quotient_this, of_Z_this.
  unfold Qeq. simpl. lia.
Qed.

End Numbers.

(** ** Fitting zoom *)

Section Fit.

Variable s : state.
Variables pbo_width pbo_height : positive.
Hypothesis size : pixbuf_size s = (Returned (pbo_width, pbo_height), s).

(** The two scales compare like the cross products of the sizes. *)
Lemma portrait_iff (H : positive) (W : Z) :
  Py.ltb (Py.of_Z (Zpos pbo_width) / Py.of_Z (Zpos pbo_height))%Qc
         (Py.of_Z W / Py.of_Z (Zpos H))%Qc = true
  <-> Zpos pbo_width * Zpos H < W * Zpos pbo_height.
Proof. rewrite ltb_lt. apply quotient_lt. Qed.

(** What [get_zoom_percent_to_fit] computes once the viewport has a
    height that is not zero. *)
Lemma get_zoom_percent_to_fit_eq (z_width z_height : bool) (W : Z) (H : positive) :
  imsize s = (W, Zpos H) ->
  get_zoom_percent_to_fit z_width z_height s =
  (Returned
     (let stickout := z_width || z_height in
      if (Zpos pbo_width <? W) && (Zpos pbo_height <? Zpos H)
         && negb (stickout || overzoom s) then Py.of_Z 1
      else if ((Zpos pbo_width * Zpos H <? W * Zpos pbo_height)
               && negb stickout) || z_height
           then (Py.of_Z (Zpos H) / Py.of_Z (Zpos pbo_height))%Qc
           else (Py.of_Z W / Py.of_Z (Zpos pbo_width))%Qc), s).
Proof.
  intros Him. unfold get_zoom_percent_to_fit, bind at 1. rewrite size.
  cbn [fst snd]. rewrite !div_of_Z by discriminate.
  cbn [or_raise]. unfold bind, ret, get. rewrite Him. cbn [fst snd].
  rewrite !div_of_Z by discriminate. cbn [or_raise]. unfold ret.
  destruct ((Zpos pbo_width <? W) && (Zpos pbo_height <? Zpos H)
            && negb (z_width || z_height || overzoom s)); [reflexivity|].
  assert (E : Py.ltb (Py.of_Z (Zpos pbo_width) / Py.of_Z (Zpos pbo_height))%Qc
                     (Py.of_Z W / Py.of_Z (Zpos H))%Qc
              = (Zpos pbo_width * Zpos H <? W * Zpos pbo_height)).
  { apply eq_true_iff_eq. rewrite portrait_iff, Z.ltb_lt. reflexivity. }
  rewrite E.
  destruct ((Zpos pbo_width * Zpos H <? W * Zpos pbo_height)
            && negb (z_width || z_height) || z_height); reflexivity.
Qed.

End Fit.

(** C4.  An image that is at most as large as the available size on both
    axes, with overzoom off and no axis flag, gets zoom factor 1: by the
    first branch when it is strictly smaller on both axes, by one of the
    two quotients, which is then a size divided by itself, when it is as
    wide or as high as the available size. *)
Theorem fit_native_when_image_fits (s : state) (pbo_width pbo_height : positive) :
  pixbuf_size s = (Returned (pbo_width, pbo_height), s) ->
  Zpos pbo_width <= fst (imsize s) ->
  Zpos pbo_height <= snd (imsize s) ->
  overzoom s = false ->
  get_zoom_percent_to_fit false false s = (Returned (Py.of_Z 1), s).
Proof.
  intros Hsize Hw Hh Hoz.
  destruct (imsize s) as [W H] eqn:Him. cbn [fst snd] in Hw, Hh.
  destruct H as [|H|H]; try lia.
  rewrite (get_zoom_percent_to_fit_eq Hsize false false Him), Hoz.
  cbn [orb negb andb]. rewrite !andb_true_r, orb_false_r.
  do 2 f_equal.
  destruct (Z.ltb_spec (Zpos pbo_width) W) as [Lw|Gw];
    destruct (Z.ltb_spec (Zpos pbo_height) (Zpos H)) as [Lh|Gh];
    cbn [andb].
  - reflexivity.
  - assert (Zpos pbo_height = Zpos H) as E by lia. injection E as ->.
    destruct (Z.ltb_spec (Zpos pbo_width * Zpos H) (W * Zpos H)); [|nia].
    apply quotient_self.
  - assert (W = Zpos pbo_width) as -> by lia.
    destruct (Z.ltb_spec (Zpos pbo_width * Zpos H)
                         (Zpos pbo_width * Zpos pbo_height)); [nia|].
    apply quotient_self.
  - assert (Zpos pbo_height = Zpos H) as E by lia. injection E as ->.
    assert (W = Zpos pbo_width) as -> by lia.
    rewrite Z.ltb_irrefl. apply quotient_self.
Qed.

Lemma fit_native_when_image_fits_witness :
  get_zoom_percent_to_fit false false Demo.icon_shown
  = (Returned (Py.of_Z 1), Demo.icon_shown).
Proof.
  apply (@fit_native_when_image_fits Demo.icon_shown 100 100).
  - reflexivity.
  - simpl. lia.
  - simpl. lia.
  - reflexivity.
Defined.

(** ** Relative zoom *)

(** Unfolding one step of the monad. *)
Ltac run :=
  unfold or_raise, try_except, assign, modify, bind, get, ret, raise;
  cbn.

Lemma one_minus_one : (Py.of_Z 1 + Py.of_Z (-1))%Qc = 0%Qc.
Proof. apply Qc_is_canon. reflexivity. Qed.

Lemma zero_below_fifty (x y : Py.num) :
  Py.ltb (x * (y * 0))%Qc (Py.of_Z 50) = true.
Proof.
  replace (x * (y * 0))%Qc with 0%Qc by ring. reflexivity.
Qed.

(** What [zoom_delta(-1)] does in any state: the factor is multiplied by
    0, the [try] block raises (the accessor on a bare class, or the size
    test on a height of 0), and the handler raises in turn. *)
Lemma zoom_delta_minus_one (w : world) (s : state) :
  thumbnail_toggled s = false ->
  zoom_delta w (Py.of_Z (-1)) s
  = (Raised Py.ZeroDivisionError,
     set_zoom_percent (zoom_percent s * 0)%Qc s).
Proof.
  intros Hth. unfold zoom_delta. unfold bind at 1, get at 1. rewrite Hth.
  rewrite one_minus_one.
  unfold try_except, unreasonable, pixbuf_size.
  unfold bind, get, assign, modify, ret, raise. cbn.
  destruct (pixbuf_original s); cbn.
  - reflexivity.
  - rewrite zero_below_fifty. reflexivity.
  - rewrite zero_below_fifty. reflexivity.
Qed.

(** C2.  With thumbnail mode off, [zoom_delta(-1)] does not return: the
    new factor is 0, the size test raises inside the [try], and the
    handler divides the factor by [1 + delta], which is 0.  The
    ZeroDivisionError leaves the method, whatever the state is. *)
Theorem zoom_delta_minus_one_raises (w : world) (s : state) :
  thumbnail_toggled s = false ->
  fst (zoom_delta w (Py.of_Z (-1)) s) = Raised Py.ZeroDivisionError.
Proof.
  intros Hth. rewrite zoom_delta_minus_one by exact Hth. reflexivity.
Qed.

Lemma zoom_delta_minus_one_raises_witness :
  thumbnail_toggled Demo.icon_shown = false /\
  fst (zoom_delta Demo.desk (Py.of_Z (-1)) Demo.icon_shown)
  = Raised Py.ZeroDivisionError.
Proof.
  split; [reflexivity|].
  apply zoom_delta_minus_one_raises. reflexivity.
Defined.

(** C7.  The rejected zoom of [zoom_delta(-1)]: the displayed height would
    be 0, below the bound of 50, and the call ends in ZeroDivisionError
    with the zoom factor left at 0 and no warning on the statusbar. *)
Theorem zoom_delta_minus_one_zeroes_zoom
    (w : world) (s : state) (pbo_width pbo_height : positive) :
  thumbnail_toggled s = false ->
  pixbuf_size s = (Returned (pbo_width, pbo_height), s) ->
  let r := zoom_delta w (Py.of_Z (-1)) s in
  Py.ltb (Py.of_pos pbo_height
          * (zoom_percent s * (Py.of_Z 1 + Py.of_Z (-1))))%Qc
         (Py.of_Z 50) = true
  /\ fst r = Raised Py.ZeroDivisionError
  /\ zoom_percent (snd r) = 0%Qc
  /\ messages (snd r) = messages s.
Proof.
  intros Hth Hsize r. subst r. rewrite one_minus_one.
  split; [apply zero_below_fifty|].
  rewrite zoom_delta_minus_one by exact Hth. cbn.
  repeat split. apply Qcmult_0_r.
Qed.

Lemma zoom_delta_minus_one_zeroes_zoom_witness :
  zoom_percent Demo.icon_shown = Py.of_Z 1 /\
  zoom_percent (snd (zoom_delta Demo.desk (Py.of_Z (-1)) Demo.icon_shown))
  = 0%Qc.
Proof.
  split; [reflexivity|].
  apply (@zoom_delta_minus_one_zeroes_zoom
           Demo.desk Demo.icon_shown 100 100); reflexivity.
Defined.

(** For every other step the handler undoes the multiplication by a
    division: a zoom rejected by the size test ends with the multiplied
    factor divided by [1 + delta] again, reports the warning and leaves
    [user_zoomed] as it was.  The statement keeps the two operations as
    the code performs them. *)
Theorem zoom_delta_rejected_divides_back
    (w : world) (s : state) (delta : Py.num) (pbo_width pbo_height : positive) :
  thumbnail_toggled s = false ->
  pixbuf_size s = (Returned (pbo_width, pbo_height), s) ->
  (Py.of_Z 1 + delta)%Qc <> 0%Qc ->
  (let shown := (Py.of_pos pbo_height
                 * (zoom_percent s * (Py.of_Z 1 + delta)))%Qc in
   Py.ltb shown (Py.of_Z 50)
   || Py.ltb (Py.of_Z (fst (window_size w) * 5)) shown) = true ->
  let r := zoom_delta w delta s in
  fst r = Returned tt
  /\ Py.div (zoom_percent s * (Py.of_Z 1 + delta))%Qc (Py.of_Z 1 + delta)%Qc
     = Some (zoom_percent (snd r))
  /\ messages (snd r)
     = messages s ++ ["Warning: Object cannot be zoomed (further)"%string]
  /\ user_zoomed (snd r) = user_zoomed s
  /\ info_updates (snd r) = info_updates s.
Proof.
  intros Hth Hsize Hnz Hbad r.
  assert (Hd : Py.div (zoom_percent s * (Py.of_Z 1 + delta))%Qc
                 (Py.of_Z 1 + delta)%Qc
               = Some (zoom_percent s * (Py.of_Z 1 + delta)
                       / (Py.of_Z 1 + delta))%Qc).
  { unfold Py.div.
    destruct (Py.is_zero (Py.of_Z 1 + delta)%Qc) eqn:Ez; [|reflexivity].
    apply is_zero_iff in Ez. contradiction. }
  assert (E : r = (Returned tt,
                   set_messages
                     (messages s
                      ++ ["Warning: Object cannot be zoomed (further)"%string])
                     (set_zoom_percent
                        (zoom_percent s * (Py.of_Z 1 + delta)
                         / (Py.of_Z 1 + delta))%Qc
                        (set_zoom_percent
                           (zoom_percent s * (Py.of_Z 1 + delta))%Qc s)))).
  { subst r. unfold zoom_delta. unfold bind at 1, get at 1. rewrite Hth.
    unfold pixbuf_size, bind, get in Hsize.
    unfold try_except, unreasonable, pixbuf_size.
    unfold bind, get, assign, modify, ret, raise. cbn in *.
    destruct (pixbuf_original s); cbn in *; try discriminate;
      injection Hsize as -> ->; rewrite Hbad; cbn;
      rewrite Hd; reflexivity. }
  rewrite E. cbn [fst snd]. split; [reflexivity|].
  split; [exact Hd|]. repeat split.
Qed.

(** ** The animation timer *)

Lemma filter_fresh (n : nat) (l : list nat) :
  Forall (fun id => id < n)%nat l ->
  filter (fun x => negb (Nat.eqb x n)) (l ++ [n]) = l.
Proof.
  induction 1 as [|x l Hx _ IH]; cbn.
  - rewrite Nat.eqb_refl. reflexivity.
  - destruct (Nat.eqb_spec x n); [lia|]. cbn. rewrite IH. reflexivity.
Qed.

(** Stepping through [bind] and [try_except] on a known result. *)
Lemma bind_returned {A B} (m : M A) (k : A -> M B) s a s' :
  m s = (Returned a, s') -> bind m k s = k a s'.
Proof. intros E. unfold bind. rewrite E. reflexivity. Qed.

Lemma try_except_raised {A} (m h : M A) s e s' :
  m s = (Raised e, s') -> try_except m h s = h s'.
Proof. intros E. unfold try_except. rewrite E. reflexivity. Qed.

(** Scaling an animation always raises. *)
Lemma scale_image_animation (w : world) (s : state)
    (width height : positive) (static : bool) (adv : list bool) (delay : Z) :
  pixbuf_original s = PixbufAnimation width height static adv delay ->
  exists e, scale_image w s = (Raised e, s).
Proof.
  intros Hpb. unfold scale_image, bind, get, or_raise, ret, raise.
  destruct (Py.getitem (paths s) (index s)) as [name|]; cbn.
  - destruct (fs w name); eauto. rewrite Hpb. eauto.
  - eauto.
Qed.

(** The animated branch of [update], from the new timer on. *)
Lemma play_gif_after_timeout_add (s : state) (it : anim_iter) :
  pixbuf_iter s = Some it ->
  Forall (fun id => id < next_source s)%nat (sources s) ->
  let s' := snd ((new <- timeout_add (delay_time it) ;;
                  assign set_timer_id new ;;
                  play_gif) s) in
  sources s' = sources s ++ [timer_id s'].
Proof.
  intros Hit Hfresh.
  unfold play_gif, iter_advance, the_iter, timeout_add, source_remove.
  run. repeat (rewrite Hit; cbn).
  destruct (advances it) as [|[|] rest]; cbn; try reflexivity.
  rewrite filter_fresh by exact Hfresh. reflexivity.
Qed.

(** C1.  Entering the animated branch of [update] never cancels what is
    scheduled: every source that was pending is still pending afterwards,
    and one more has been added, the one [timer_id] now names.  ([update]
    adds a source and calls [play_gif], which removes the source just
    added, if the animation advances, and adds another.) *)
Theorem update_keeps_pending_timers
    (w : world) (s : state) (it : anim_iter) (update_info_ : bool)
    (width height : positive) (static : bool) (adv : list bool) (delay : Z) :
  paths s <> [] ->
  pixbuf_original s = PixbufAnimation width height static adv delay ->
  pixbuf_iter s = Some it ->
  animation_toggled s = false ->
  Forall (fun id => id < next_source s)%nat (sources s) ->
  let s' := snd (update w update_info_ true s) in
  sources s' = sources s ++ [timer_id s'].
Proof.
  intros Hps Hpb Hit Hanim Hfresh.
  destruct (scale_image_animation w s Hpb) as [e He].
  set (s1 := set_zoom_percent (Py.of_Z 1) s).
  set (start := (new <- timeout_add (delay_time it) ;;
                 assign set_timer_id new ;; play_gif)).
  assert (E : update w update_info_ true s
              = (start ;; if update_info_ then update_info else ret tt) s1).
  { unfold update. unfold bind at 1, get at 1.
    destruct (paths s) as [|p ps] eqn:Eps; [contradiction|].
    assert (Hsz : pixbuf_size s = (Returned (width, height), s)).
    { unfold pixbuf_size, bind, get. rewrite Hpb. reflexivity. }
    rewrite (bind_returned _ _ _ Hsz).
    unfold bind at 1. rewrite (try_except_raised _ _ _ He).
    unfold bind at 1, assign at 1, modify at 1.
    unfold bind at 1, get at 1. cbn [animation_toggled set_zoom_percent].
    rewrite Hanim. cbn [negb].
    unfold bind at 1, the_iter at 1. unfold bind at 1, get at 1.
    cbn [pixbuf_iter set_zoom_percent]. rewrite Hit. cbn [or_raise ret].
    reflexivity. }
  assert (Hplay : let s' := snd (start s1) in
                  sources s' = sources s1 ++ [timer_id s']).
  { apply play_gif_after_timeout_add; [exact Hit|exact Hfresh]. }
  cbv zeta in Hplay |- *. rewrite E. unfold bind.
  destruct (start s1) as [[[]| |] s2]; cbn [fst snd] in Hplay |- *;
    try exact Hplay.
  destruct update_info_; exact Hplay.
Qed.

Lemma update_keeps_pending_timers_witness :
  let s2 := snd (update Demo.desk true true Demo.gif_playing) in
  sources Demo.gif_playing = [2%nat]
  /\ sources s2 = sources Demo.gif_playing ++ [timer_id s2].
Proof.
  split; [reflexivity|].
  apply (@update_keeps_pending_timers Demo.desk Demo.gif_playing
           (AnimIter [true; true] 100) true 64 64 false [true; true; true] 100).
  - discriminate.
  - reflexivity.
  - reflexivity.
  - reflexivity.
  - repeat constructor.
Defined.

(** On that run the second start leaves two callbacks scheduled. *)
Example two_timers_after_second_start :
  sources (snd (update Demo.desk true true Demo.gif_playing))
  = [2%nat; 4%nat].
Proof. vm_compute. reflexivity. Qed.

(** ** The percentage typed before a zoom command *)

Section Percent.

Variable s : state.







End Percent.



Section Malformed.





Lemma parse_percent_lone_zero (s : state) :
  parse_percent "0" s = (Raised Py.ValueError, s).
Proof. reflexivity. Qed.

End Malformed.




(** ** Jumping to a position *)

(** Positions beyond the end of the list are rejected: the warning is
    reported and nothing else changes. *)
Lemma move_pos_beyond_end
    (move : bool -> bool -> Z -> bool -> M (option bool))
    (forward force : bool) (s : state) (pos : Z) :
  check_for_edit force s = (Returned false, s) ->
  nonempty (num_str s) = true ->
  Py.int (num_str s) = Some pos ->
  Z.of_nat (length (paths s)) < pos ->
  move_pos_with move forward force s
  = (Returned (Some false),
     set_messages (messages s ++ ["Warning: Unsupported index"%string]) s).
Proof.
  intros Hedit Hne Hint Hpos. unfold move_pos_with.
  unfold bind at 1, try_except at 1, bind at 1. rewrite Hedit.
  cbn [ret]. unfold bind at 1, get at 1. unfold bind at 1, get_pos, get at 1.
  unfold bind at 1, get at 1. rewrite Hne.
  unfold bind at 1. rewrite Hint. cbn [or_raise ret].
  destruct (Z.ltb_spec pos 0); [lia|].
  destruct (Z.gtb_spec pos (Z.of_nat (length (paths s)))); [|lia].
  reflexivity.
Qed.

(** C6.  Position 0 is not rejected: with "0" typed, [move_pos] passes the
    test [pos < 0 or pos > max_pos], moves by [0 - current - 1] and wraps
    to the last picture; no warning is reported. *)
Theorem move_pos_zero_goes_to_last :
  let r := move_pos Demo.desk 4 true false Demo.position_zero in
  index Demo.position_zero = 0
  /\ fst r = Returned (Some true)
  /\ index (snd r) = 2
  /\ messages (snd r) = [].
Proof. vm_compute. repeat split. Qed.

(** The same list with "4" typed: rejected and reported. *)
Example move_pos_four_rejected :
  let s := set_num_str "4" Demo.position_zero in
  let r := move_pos Demo.desk 4 true false s in
  fst r = Returned (Some false)
  /\ index (snd r) = 0
  /\ messages (snd r) = ["Warning: Unsupported index"%string].
Proof. vm_compute. repeat split. Qed.

(** ** Showing a file that decodes *)

Section Quiet.

Lemma quiet_ret {A} (a : A) : quiet (ret a).
Proof. intros s. split; [reflexivity|]. split; discriminate. Qed.

Lemma quiet_raise {A} (e : Py.exn) : e <> Py.GLibError -> quiet (@raise A e).
Proof. intros N s. split; [reflexivity|]. split; cbn; congruence. Qed.

Lemma quiet_get {A} (f : state -> A) : quiet (get f).
Proof. intros s. split; [reflexivity|]. split; discriminate. Qed.

Lemma quiet_modify (f : state -> state) :
  (forall s, nav (f s) = nav s) -> quiet (modify f).
Proof. intros H s. split; [apply H|]. split; discriminate. Qed.

Lemma quiet_or_raise {A} (e : Py.exn) (o : option A) :
  e <> Py.GLibError -> quiet (or_raise e o).
Proof.
  intros N. destruct o; [apply quiet_ret|apply quiet_raise; exact N].
Qed.

Lemma quiet_bind {A B} (m : M A) (k : A -> M B) :
  quiet m -> (forall a, quiet (k a)) -> quiet (bind m k).
Proof.
  intros Hm Hk s. unfold bind.
  destruct (Hm s) as (Hn & Hf & Hg).
  destruct (m s) as [[a| e |] s1]; cbn [fst snd] in *.
  - destruct (Hk a s1) as (Hn' & Hf' & Hg').
    split; [congruence|]. split; assumption.
  - split; [assumption|]. split; [discriminate|congruence].
  - contradiction.
Qed.

Lemma quiet_try_except {A} (m h : M A) :
  quiet m -> quiet h -> quiet (try_except m h).
Proof.
  intros Hm Hh s. unfold try_except.
  destruct (Hm s) as (Hn & Hf & Hg).
  destruct (m s) as [[a| e |] s1]; cbn [fst snd] in *.
  - split; [assumption|]. split; assumption.
  - destruct (Hh s1) as (Hn' & Hf' & Hg').
    split; [congruence|]. split; assumption.
  - contradiction.
Qed.

(** A quiet body never reaches the handler of [except GLib.Error]. *)
Lemma try_except_on_quiet {A} (m h : M A) :
  quiet m -> forall s, try_except_on Py.GLibError m h s = m s.
Proof.
  intros Hm s. unfold try_except_on.
  destruct (Hm s) as (_ & _ & Hg).
  destruct (m s) as [[a| e |] s1]; cbn [fst snd] in *; try reflexivity.
  destruct e; try reflexivity. contradiction.
Qed.

End Quiet.

(** Composite computations are quiet when their parts are. *)
Ltac quiet_step :=
  match goal with
  | |- quiet (bind _ _) => apply quiet_bind; [|intros ?]
  | |- quiet (ret _) => apply quiet_ret
  | |- quiet (get _) => apply quiet_get
  | |- quiet (raise _) => apply quiet_raise; discriminate
  | |- quiet (or_raise _ _) => apply quiet_or_raise; discriminate
  | |- quiet (try_except _ _) => apply quiet_try_except
  | |- quiet (assign _ _) => apply quiet_modify; intros ?; reflexivity
  | |- quiet (modify _) => apply quiet_modify; intros ?; reflexivity
  | |- quiet (if ?b then _ else _) => destruct b
  | |- quiet (match ?x with _ => _ end) => destruct x
  end.

Ltac quiet_auto := repeat quiet_step.

Section QuietMethods.

Variable w : world.

Lemma quiet_pixbuf_size : quiet pixbuf_size.
Proof. unfold pixbuf_size. quiet_auto. Qed.

Lemma quiet_the_iter : quiet the_iter.
Proof. unfold the_iter. quiet_auto. Qed.

Lemma quiet_timeout_add (delay : Z) : quiet (timeout_add delay).
Proof. intros s. split; [reflexivity|]. split; discriminate. Qed.

Lemma quiet_source_remove (id : nat) : quiet (source_remove id).
Proof. unfold source_remove. quiet_auto. Qed.

Lemma quiet_update_info : quiet update_info.
Proof. unfold update_info. quiet_auto. Qed.

Lemma quiet_iter_advance : quiet iter_advance.
Proof.
  unfold iter_advance. apply quiet_bind; [apply quiet_the_iter|intros it].
  quiet_auto.
Qed.

Lemma quiet_play_gif : quiet play_gif.
Proof.
  unfold play_gif.
  repeat first [ apply quiet_the_iter | apply quiet_iter_advance
               | apply quiet_timeout_add | apply quiet_source_remove
               | quiet_step ].
Qed.

Lemma quiet_pause_gif : quiet pause_gif.
Proof.
  unfold pause_gif.
  repeat first [ apply quiet_the_iter | apply quiet_source_remove
               | quiet_step ].
Qed.

Lemma quiet_scale_image : quiet (scale_image w).
Proof. unfold scale_image. quiet_auto. Qed.

Lemma quiet_update (update_info_ update_gif : bool) :
  quiet (update w update_info_ update_gif).
Proof.
  unfold update.
  repeat first [ apply quiet_pixbuf_size | apply quiet_scale_image
               | apply quiet_the_iter | apply quiet_timeout_add
               | apply quiet_play_gif | apply quiet_pause_gif
               | apply quiet_update_info | quiet_step ].
Qed.

Lemma quiet_get_zoom_percent_to_fit (z_width z_height : bool) :
  quiet (get_zoom_percent_to_fit z_width z_height).
Proof.
  unfold get_zoom_percent_to_fit.
  repeat first [ apply quiet_pixbuf_size | quiet_step ].
Qed.

(** [show_image] on a path whose file decodes: no retry, and nothing
    of the list, the index or the statusbar is touched. *)
Lemma quiet_show_image_with
    (retry : bool -> bool -> M (option bool))
    (path : string) (update_image : bool) :
  readable w path = true ->
  quiet (show_image_with w retry path update_image).
Proof.
  intros Hr. unfold readable in Hr. unfold show_image_with.
  destruct (fs w path) eqn:Efs; try discriminate.
  match goal with
  | |- quiet (try_except_on _ ?m ?h) =>
      assert (Hm : quiet m); [|intros s; rewrite try_except_on_quiet by exact Hm; apply Hm]
  end.
  repeat first [ apply quiet_pixbuf_size | apply quiet_pause_gif
               | apply quiet_update | apply quiet_get_zoom_percent_to_fit
               | quiet_step ].
Qed.

Lemma quiet_show_image (fuel : nat) (path : string) (update_image : bool) :
  readable w path = true ->
  quiet (show_image w (S fuel) path update_image).
Proof. intros Hr. cbn [show_image]. apply quiet_show_image_with, Hr. Qed.

End QuietMethods.

(** ** [random.shuffle] permutes the list *)

Section Shuffle.

Context {A : Type}.

Lemma setitem_perm (l : list A) (i : nat) (x : A) :
  Permutation (Py.setitem l i x) (x :: without i l).
Proof. unfold Py.setitem, without. symmetry. apply Permutation_middle. Qed.

Lemma nth_error_perm (l : list A) (i : nat) (a : A) :
  nth_error l i = Some a -> Permutation l (a :: without i l).
Proof.
  intros H. rewrite <- (firstn_skipn_middle _ _ H) at 1.
  symmetry. apply Permutation_middle.
Qed.

Lemma nth_error_setitem (l : list A) (i j : nat) (a b : A) :
  nth_error l i = Some a ->
  nth_error l j = Some b ->
  nth_error (Py.setitem l i b) j = Some b.
Proof.
  intros Hi Hj. unfold Py.setitem.
  assert (Li : (i < length l)%nat) by (apply nth_error_Some; congruence).
  assert (Lf : length (firstn i l) = i) by (rewrite length_firstn; lia).
  destruct (Nat.lt_trichotomy j i) as [L|[->|G]].
  - rewrite nth_error_app1 by lia. rewrite nth_error_firstn.
    destruct (Nat.ltb_spec j i); [exact Hj|lia].
  - rewrite nth_error_app2 by lia. rewrite Lf, Nat.sub_diag. reflexivity.
  - rewrite nth_error_app2 by lia. rewrite Lf.
    replace (j - i)%nat with (S (j - S i)) by lia. cbn [nth_error].
    rewrite nth_error_skipn. replace (S i + (j - S i))%nat with j by lia.
    exact Hj.
Qed.

Lemma swap_perm (l : list A) (i j : nat) : Permutation (Py.swap l i j) l.
Proof.
  unfold Py.swap.
  destruct (nth_error l i) as [a|] eqn:Hi; [|reflexivity].
  destruct (nth_error l j) as [b|] eqn:Hj; [|reflexivity].
  pose proof (nth_error_setitem l i j Hi Hj) as Hj1.
  apply Permutation_cons_inv with (a := b).
  rewrite (setitem_perm (Py.setitem l i b) j a).
  rewrite perm_swap.
  rewrite <- (nth_error_perm _ _ Hj1).
  rewrite (setitem_perm l i b).
  rewrite perm_swap.
  rewrite <- (nth_error_perm _ _ Hi).
  reflexivity.
Qed.

Lemma shuffle_from_perm (i : nat) (draws : list nat) (l : list A) :
  Permutation (fst (Py.shuffle_from i draws l)) l.
Proof.
  revert draws l. induction i as [|i IH]; intros draws l.
  - reflexivity.
  - cbn [Py.shuffle_from]. rewrite IH. apply swap_perm.
Qed.

Lemma shuffle_perm (draws : list nat) (l : list A) :
  Permutation (fst (Py.shuffle draws l)) l.
Proof. apply shuffle_from_perm. Qed.

Lemma shuffle_length (draws : list nat) (l : list A) :
  length (fst (Py.shuffle draws l)) = length l.
Proof. apply Permutation_length, shuffle_perm. Qed.

End Shuffle.

(** ** Moving in the list *)

Section Navigate.

Variable w : world.

Lemma getitem_in_range {A} (l : list A) (i : Z) :
  0 <= i < Z.of_nat (length l) ->
  exists x, Py.getitem l i = Some x /\ In x l.
Proof.
  intros [Lo Hi]. unfold Py.getitem.
  destruct (Z.leb_spec 0 i); [|lia].
  destruct (Z.ltb_spec i (Z.of_nat (length l))); [|lia]. cbn [andb].
  destruct (nth_error l (Z.to_nat i)) as [x|] eqn:E.
  - exists x. split; [reflexivity|]. eapply nth_error_In, E.
  - apply nth_error_None in E. lia.
Qed.

Lemma getitem_nonempty {A} (l : list A) (i : Z) (x : A) :
  Py.getitem l i = Some x -> nonempty_list l = true.
Proof.
  destruct l; [|reflexivity]. unfold Py.getitem. cbn [length Z.of_nat].
  destruct (0 <=? i), (i <? 0), (-0 <=? i); cbn;
    try discriminate; destruct (Z.to_nat _); discriminate.
Qed.

(** The guard lets a forced move, and a move from a path without the
    marker, through, silently. *)
Lemma check_for_edit_clear (force : bool) (s : state) (p : string) :
  Py.getitem (paths s) (index s) = Some p ->
  force = true \/ Py.contains "EDIT" p = false ->
  check_for_edit force s = (Returned false, s).
Proof.
  intros Hp Hc. unfold check_for_edit. unfold bind at 1, get at 1.
  destruct (paths s) as [|q ps] eqn:Eps; [reflexivity|].
  unfold bind at 1, get at 1. unfold bind at 1. rewrite Hp.
  cbn [or_raise ret].
  destruct Hc as [-> | ->]; [rewrite andb_false_r|]; reflexivity.
Qed.

(** It stops an unforced move from a path with the marker, with one
    message. *)
Lemma check_for_edit_blocked (s : state) (p : string) :
  Py.getitem (paths s) (index s) = Some p ->
  Py.contains "EDIT" p = true ->
  check_for_edit false s
  = (Returned true,
     set_messages
       (messages s ++ ["Image has been edited, add ! to force"%string]) s).
Proof.
  intros Hp Hc. unfold check_for_edit. unfold bind at 1, get at 1.
  pose proof (getitem_nonempty _ _ Hp) as Hne.
  destruct (paths s) as [|q ps] eqn:Eps; [discriminate|].
  unfold bind at 1, get at 1. unfold bind at 1. rewrite Hp.
  cbn [or_raise ret]. rewrite Hc. reflexivity.
Qed.

(** The end of [move_index] touches the statusbar and the prefix only. *)
Lemma finish_move_result (returncode : Z) (s : state) :
  let r := finish_move returncode s in
  fst r = Returned (Some true)
  /\ paths (snd r) = paths s
  /\ index (snd r) = index s
  /\ thumbnail_toggled (snd r) = thumbnail_toggled s
  /\ shuffle (snd r) = shuffle s
  /\ rng (snd r) = rng s
  /\ num_str (snd r) = EmptyString.
Proof.
  unfold finish_move, num_clear, err_message.
  unfold assign, modify, bind, get, ret. cbn.
  destruct (slideshow_running s && (returncode =? 0)); cbn;
    [destruct (index s =? slideshow_start_index s); cbn|];
    repeat split.
Qed.

(** [move_index] past its guard, up to the call of [show_image]. *)
Lemma navigate_with_landed (show : string -> bool -> M Z)
    (forward key : bool) (delta : Z) (s : state) (path : string) :
  key && nonempty (num_str s) = false ->
  let step := if forward then delta else delta * -1 in
  Py.getitem (paths (landed step s)) (index (landed step s)) = Some path ->
  navigate_with show forward key delta s
  = (returncode <- show path (negb (step =? 0)) ;;
     finish_move returncode) (landed step s).
Proof.
  intros Hkey step Hpath. unfold navigate_with.
  unfold bind at 1, get at 1. rewrite Hkey.
  unfold bind at 1, ret at 1. fold step.
  unfold bind at 1, get at 1. unfold bind at 1, get at 1.
  unfold bind at 1, assign at 1, modify at 1.
  unfold bind at 1, assign at 1, modify at 1.
  unfold bind at 1, get at 1. unfold bind at 1, get at 1.
  cbn [shuffle index set_user_zoomed set_index].
  unfold landed in Hpath |- *. cbv zeta in Hpath |- *.
  destruct (shuffle s && ((index s + step) mod Z.of_nat (length (paths s)) =? 0)
            && (step >? 0)).
  - unfold bind at 1. unfold bind at 1, get at 1. unfold bind at 1, get at 1.
    unfold bind at 1, assign at 1, modify at 1.
    unfold assign at 1, modify at 1.
    unfold bind at 1, get at 1. unfold bind at 1, get at 1.
    cbn [paths rng index set_user_zoomed set_index set_paths set_rng]
      in Hpath |- *.
    unfold bind at 1. rewrite Hpath. cbn [or_raise ret]. reflexivity.
  - unfold bind at 1, ret at 1.
    unfold bind at 1, get at 1. unfold bind at 1, get at 1.
    cbn [paths rng index set_user_zoomed set_index set_paths set_rng]
      in Hpath |- *.
    unfold bind at 1. rewrite Hpath. cbn [or_raise ret]. reflexivity.
Qed.

End Navigate.

Section Landing.

Variable s : state.
Variable step : Z.
Hypothesis nonempty_paths : paths s <> [].

Lemma landed_index :
  index (landed step s) = (index s + step) mod Z.of_nat (length (paths s)).
Proof.
  unfold landed. cbv zeta.
  destruct (shuffle s && _ && _); reflexivity.
Qed.

Lemma landed_paths :
  paths (landed step s)
  = if shuffle s && (index (landed step s) =? 0) && (step >? 0)
    then fst (Py.shuffle (rng s) (paths s)) else paths s.
Proof.
  rewrite landed_index. unfold landed. cbv zeta.
  destruct (shuffle s && _ && _); reflexivity.
Qed.


Lemma landed_perm : Permutation (paths (landed step s)) (paths s).
Proof.
  rewrite landed_paths.
  destruct (shuffle s && _ && _); [apply shuffle_perm|reflexivity].
Qed.

Lemma landed_flags :
  thumbnail_toggled (landed step s) = thumbnail_toggled s
  /\ shuffle (landed step s) = shuffle s
  /\ num_str (landed step s) = num_str s
  /\ messages (landed step s) = messages s.
Proof.
  unfold landed. cbv zeta.
  destruct (shuffle s && _ && _); repeat split.
Qed.

Lemma landed_in_range :
  0 <= index (landed step s) < Z.of_nat (length (paths (landed step s))).
Proof.
  rewrite (Permutation_length landed_perm), landed_index.
  apply Z.mod_pos_bound.
  destruct (paths s); [contradiction|cbn [length]; lia].
Qed.

End Landing.

Section Moves.

Variable w : world.

(** Past the guard, on files that decode: the state [show_image] is
    called in fixes the list, the index and the generator for good. *)
Lemma navigate_on_readable (show : string -> bool -> M Z)
    (forward key : bool) (delta : Z) (s : state) :
  key && nonempty (num_str s) = false ->
  paths s <> [] ->
  (forall p u, In p (paths s) -> quiet (show p u)) ->
  let step := if forward then delta else delta * -1 in
  let r := navigate_with show forward key delta s in
  paths (snd r) = paths (landed step s)
  /\ index (snd r) = index (landed step s)
  /\ rng (snd r) = rng (landed step s)
  /\ thumbnail_toggled (snd r) = thumbnail_toggled s
  /\ shuffle (snd r) = shuffle s
  /\ (num_str (snd r) = EmptyString \/ num_str (snd r) = num_str s)
  /\ fst r <> OutOfFuel
  /\ fst r <> Returned None.
Proof.
  intros Hkey Hne Hshow step r.
  destruct (@getitem_in_range _ (paths (landed step s))
              (index (landed step s)) (@landed_in_range s step Hne))
    as (path & Hpath & Hin).
  assert (Hin' : In path (paths s)).
  { eapply Permutation_in; [apply (@landed_perm s step)|exact Hin]. }
  pose proof (@navigate_with_landed show forward key delta s path Hkey Hpath) as E.
  fold step in E. subst r. rewrite E. clear E.
  destruct (@landed_flags s step) as (Fth & Fsh & Fns & _).
  destruct (Hshow path (negb (step =? 0)) Hin' (landed step s))
    as (Hnav & Hfuel & _).
  unfold bind.
  destruct (show path (negb (step =? 0)) (landed step s))
    as [[rc|e|] s1]; cbn [fst snd] in *.
  - unfold nav in Hnav. injection Hnav as Hp Hi Ht Hn _ Hsh Hr _ _ _.
    destruct (@finish_move_result rc s1) as (R1 & R2 & R3 & R4 & R5 & R6 & R7).
    rewrite R1, R2, R3, R4, R5, R6, R7.
    repeat split; try congruence. left. reflexivity.
  - unfold nav in Hnav. injection Hnav as Hp Hi Ht Hn _ Hsh Hr _ _ _.
    repeat split; try congruence. right. congruence.
  - contradiction.
Qed.

(** The guard of [move_index]. *)
Lemma move_index_passes (show : string -> bool -> M Z)
    (forward key : bool) (delta : Z) (force : bool) (s : state) :
  paths s <> [] ->
  thumbnail_toggled s = false ->
  check_for_edit force s = (Returned false, s) ->
  move_index_with show forward key delta force s
  = navigate_with show forward key delta s.
Proof.
  intros Hne Hth Hedit. unfold move_index_with.
  unfold bind at 1, get at 1. unfold bind at 1, get at 1.
  destruct (paths s) as [|p ps] eqn:Eps; [contradiction|].
  rewrite Hth. cbn [nonempty_list negb orb].
  unfold bind at 1. rewrite Hedit. reflexivity.
Qed.

Lemma move_index_blocked (show : string -> bool -> M Z)
    (forward key : bool) (delta : Z) (s : state) (p : string) :
  thumbnail_toggled s = false ->
  Py.getitem (paths s) (index s) = Some p ->
  Py.contains "EDIT" p = true ->
  move_index_with show forward key delta false s
  = (Returned None,
     set_messages
       (messages s ++ ["Image has been edited, add ! to force"%string]) s).
Proof.
  intros Hth Hp Hc. unfold move_index_with.
  unfold bind at 1, get at 1. unfold bind at 1, get at 1.
  rewrite (@getitem_nonempty _ _ _ _ Hp), Hth. cbn [negb orb].
  unfold bind at 1. rewrite (@check_for_edit_blocked s p Hp Hc). reflexivity.
Qed.

(** In thumbnail mode [move_index] is a no-op. *)
Lemma move_index_thumbnail (show : string -> bool -> M Z)
    (forward key : bool) (delta : Z) (force : bool) (s : state) :
  thumbnail_toggled s = true ->
  move_index_with show forward key delta force s = (Returned None, s).
Proof.
  intros Hth. unfold move_index_with.
  unfold bind at 1, get at 1. unfold bind at 1, get at 1.
  rewrite Hth, orb_true_r. reflexivity.
Qed.

(** Past its guard [move_index] returns True, raises or runs out of
    fuel; it never gives the bare [return] of a refusal. *)
Lemma navigate_never_refuses (show : string -> bool -> M Z)
    (forward key : bool) (delta : Z) (s : state) :
  fst (navigate_with show forward key delta s) <> Returned None.
Proof.
  unfold navigate_with.
  repeat match goal with
  | |- fst (bind ?m ?k ?s0) <> _ =>
      unfold bind at 1; destruct (m s0) as [[?|?|] ?]; cbn [fst];
      try discriminate
  end.
Qed.

End Moves.

Section Laws.

Variable w : world.

Lemma check_for_edit_unmarked (force : bool) (s : state) :
  0 <= index s < Z.of_nat (length (paths s)) ->
  force = true \/ forallb unmarked (paths s) = true ->
  check_for_edit force s = (Returned false, s).
Proof.
  intros Hi Hf.
  destruct (@getitem_in_range _ (paths s) (index s) Hi) as (p & Hp & Hin).
  apply (@check_for_edit_clear force s p Hp).
  destruct Hf as [F|F]; [left; exact F|right].
  rewrite forallb_forall in F. specialize (F p Hin).
  unfold unmarked in F. destruct (Py.contains "EDIT" p); [discriminate|].
  reflexivity.
Qed.

(** [move_index] when nothing stands in its way. *)
Lemma move_index_on_readable (fuel : nat) (s : state)
    (forward key force : bool) (delta : Z) :
  0 <= index s < Z.of_nat (length (paths s)) ->
  thumbnail_toggled s = false ->
  force = true \/ forallb unmarked (paths s) = true ->
  forallb (readable w) (paths s) = true ->
  key && nonempty (num_str s) = false ->
  let step := if forward then delta else delta * -1 in
  let r := move_index w (S fuel) forward key delta force s in
  paths (snd r) = paths (landed step s)
  /\ index (snd r) = index (landed step s)
  /\ rng (snd r) = rng (landed step s)
  /\ thumbnail_toggled (snd r) = thumbnail_toggled s
  /\ shuffle (snd r) = shuffle s
  /\ (num_str (snd r) = EmptyString \/ num_str (snd r) = num_str s)
  /\ fst r <> OutOfFuel
  /\ fst r <> Returned None.
Proof.
  intros Hi Hth Hf Hr Hkey step r.
  assert (Hne : paths s <> []).
  { destruct (paths s); [cbn in Hi; lia|discriminate]. }
  subst r. unfold move_index.
  rewrite move_index_passes;
    [|exact Hne|exact Hth|apply check_for_edit_unmarked; assumption].
  apply navigate_on_readable; [exact Hkey|exact Hne|].
  intros p u Hin. apply quiet_show_image.
  rewrite forallb_forall in Hr. apply Hr, Hin.
Qed.

End Laws.

(** C10, as the code has it.  With thumbnail mode off and a current path
    [p]: an unforced [move_index] is refused, index and list untouched and
    exactly one message added, when "EDIT" occurs in [p]; when it does
    not, or when the move is forced, the guard is passed, the method runs
    on and never gives the bare [return] of a refusal, and on a list of
    files that decode it leaves the index at the old one plus the step,
    modulo the length. *)
Theorem edit_marker_guard
    (w : world) (fuel : nat) (s : state) (p : string)
    (forward key force : bool) (delta : Z) :
  thumbnail_toggled s = false ->
  Py.getitem (paths s) (index s) = Some p ->
  let r := move_index w (S fuel) forward key delta force s in
  (force = false -> Py.contains "EDIT" p = true ->
   r = (Returned None,
        set_messages
          (messages s ++ ["Image has been edited, add ! to force"%string]) s))
  /\ (force = true \/ Py.contains "EDIT" p = false ->
      r = navigate_with (show_image w (S fuel)) forward key delta s
      /\ fst r <> Returned None
      /\ (forallb (readable w) (paths s) = true ->
          key && nonempty (num_str s) = false ->
          index (snd r)
          = (index s + (if forward then delta else delta * -1))
            mod Z.of_nat (length (paths s)))).
Proof.
  intros Hth Hp r. subst r. split.
  - intros -> Hc. unfold move_index.
    apply move_index_blocked with (p := p); assumption.
  - intros Hc.
    assert (Hne : paths s <> []).
    { pose proof (@getitem_nonempty _ _ _ _ Hp) as N.
      destruct (paths s); [discriminate|discriminate]. }
    assert (E : move_index w (S fuel) forward key delta force s
                = navigate_with (show_image w (S fuel)) forward key delta s).
    { unfold move_index. apply move_index_passes; try assumption.
      apply (@check_for_edit_clear force s p Hp Hc). }
    split; [exact E|]. split.
    + rewrite E. apply navigate_never_refuses.
    + intros Hr Hkey. rewrite E.
      pose proof (@navigate_on_readable (show_image w (S fuel))
                    forward key delta s Hkey Hne) as N.
      cbv zeta in N. destruct N as (_ & Hidx & _).
      * intros q u Hin. apply quiet_show_image.
        rewrite forallb_forall in Hr. apply Hr, Hin.
      * rewrite Hidx. apply landed_index.
Qed.

Lemma edit_marker_guard_witness :
  move_index Demo.desk 1 true false 1 false
    (set_index 1 Demo.marker_ahead)
  = (Returned None,
     set_messages ["Image has been edited, add ! to force"%string]
       (set_index 1 Demo.marker_ahead)).
Proof.
  refine (proj1 (@edit_marker_guard Demo.desk 0 (set_index 1 Demo.marker_ahead)
                   "EDIT.png" true false false 1 _ _) _ _).
  - reflexivity.
  - reflexivity.
  - reflexivity.
  - reflexivity.
Defined.

(** In thumbnail mode the guard of [move_index] returns before it looks
    at the path: a forced move does not proceed, and the refusal of an
    unforced move from a marked path comes without a message. *)
Lemma edit_marker_counterexample :
  thumbnail_toggled Demo.in_thumbnail_mode = true
  /\ Py.getitem (paths Demo.in_thumbnail_mode) (index Demo.in_thumbnail_mode)
     = Some "EDIT.png"%string
  /\ move_index Demo.desk 3 true false 1 true Demo.in_thumbnail_mode
     = (Returned None, Demo.in_thumbnail_mode)
  /\ move_index Demo.desk 3 true false 1 false Demo.in_thumbnail_mode
     = (Returned None, Demo.in_thumbnail_mode).
Proof. repeat split. Qed.

(** C9, as the code has it.  On a list of files that decode, with no
    numeric prefix consumed, and the move either forced or made on a list
    without the marker: [move_index] by [delta] and then by [- delta]
    brings the index back, with or without a reshuffle in between (and
    trivially in thumbnail mode, where neither call moves). *)
Theorem move_index_round_trip
    (w : world) (fuel : nat) (s : state)
    (forward key force : bool) (delta : Z) :
  0 <= index s < Z.of_nat (length (paths s)) ->
  force = true \/ forallb unmarked (paths s) = true ->
  forallb (readable w) (paths s) = true ->
  key && nonempty (num_str s) = false ->
  let s1 := snd (move_index w (S fuel) forward key delta force s) in
  let s2 := snd (move_index w (S fuel) forward key (- delta) force s1) in
  index s2 = index s.
Proof.
  intros Hi Hf Hr Hkey s1 s2.
  destruct (thumbnail_toggled s) eqn:Hth.
  { subst s2 s1. unfold move_index.
    rewrite (@move_index_thumbnail _ forward key delta force s Hth).
    cbn [snd].
    rewrite (@move_index_thumbnail _ forward key (- delta) force s Hth).
    reflexivity. }
  assert (Hne : paths s <> []).
  { destruct (paths s); [cbn in Hi; lia|discriminate]. }
  set (step := if forward then delta else delta * -1).
  destruct (@move_index_on_readable w fuel s forward key force delta
              Hi Hth Hf Hr Hkey)
    as (P1 & I1 & _ & T1 & _ & N1 & _).
  fold s1 in P1, I1, T1, N1. fold step in P1, I1.
  pose proof (@landed_perm s step) as Perm. rewrite <- P1 in Perm.
  pose proof (Permutation_length Perm) as Len.
  assert (Hi1 : 0 <= index s1 < Z.of_nat (length (paths s1))).
  { rewrite P1, I1. apply landed_in_range, Hne. }
  assert (Hf1 : force = true \/ forallb unmarked (paths s1) = true).
  { destruct Hf as [F|F]; [left; exact F|right].
    rewrite forallb_forall in F |- *. intros q Hq.
    apply F. eapply Permutation_in; eassumption. }
  assert (Hr1 : forallb (readable w) (paths s1) = true).
  { rewrite forallb_forall in Hr |- *. intros q Hq.
    apply Hr. eapply Permutation_in; eassumption. }
  assert (Hkey1 : key && nonempty (num_str s1) = false).
  { destruct N1 as [-> | ->]; [apply andb_false_r|exact Hkey]. }
  destruct (@move_index_on_readable w fuel s1 forward key force (- delta)
              Hi1 (eq_trans T1 Hth) Hf1 Hr1 Hkey1)
    as (_ & I2 & _).
  fold s2 in I2. rewrite I2.
  rewrite landed_index, I1, landed_index, Len.
  replace (if forward then - delta else - delta * -1) with (- step)
    by (unfold step; destruct forward; lia).
  rewrite Zplus_mod_idemp_l.
  replace (index s + step + - step) with (index s) by lia.
  apply Z.mod_small, Hi.
Qed.

Lemma move_index_round_trip_witness :
  index
    (snd (move_index Demo.desk 1 true false (-1) true
            (snd (move_index Demo.desk 1 true false 1 true
                    Demo.marker_ahead))))
  = index Demo.marker_ahead.
Proof.
  replace (-1) with (- (1)) at 1 by reflexivity.
  apply (@move_index_round_trip Demo.desk 0 Demo.marker_ahead
           true false true 1).
  - cbn. lia.
  - left. reflexivity.
  - reflexivity.
  - reflexivity.
Defined.

(** Without force the way back can be closed: from "a.jpg" one step
    forward lands on "EDIT.png", and the step back is refused there.
    With force a file that cannot be read closes it as well: the step
    forward removes "x.jpg" and ends on index 0, the step back on 1. *)
Lemma move_index_round_trip_counterexample :
  (let s1 := snd (move_index Demo.desk 3 true false 1 false
                    Demo.marker_ahead) in
   let s2 := snd (move_index Demo.desk 3 true false (-1) false s1) in
   index Demo.marker_ahead = 0 /\ index s1 = 1 /\ index s2 = 1
   /\ shuffle Demo.marker_ahead = false)
  /\ (let s1 := snd (move_index Demo.desk 3 true false 1 true
                       Demo.gap_ahead) in
      let s2 := snd (move_index Demo.desk 3 true false (-1) true s1) in
      index Demo.gap_ahead = 0 /\ index s1 = 0 /\ index s2 = 1).
Proof. vm_compute. repeat split. Qed.


(** ** A file that cannot be read *)

Section Calm.

Lemma quiet_calm {A} (m : M A) : quiet m -> calm m.
Proof. intros H s. destruct (H s) as (_ & F & G). split; assumption. Qed.




Lemma try_except_on_calm {A} (m h : M A) :
  calm m -> forall s, try_except_on Py.GLibError m h s = m s.
Proof.
  intros Hm s. unfold try_except_on. destruct (Hm s) as (_ & Hg).
  destruct (m s) as [[a| e |] s1]; cbn [fst snd] in *; try reflexivity.
  destruct e; try reflexivity. contradiction.
Qed.

End Calm.

Section Retry.

Variable w : world.


(** On a path that cannot be read the [try] block raises at once and
    the handler runs: the path leaves the list, the error is reported,
    [move_pos(False)] is called, and the result is 1. *)
Lemma show_image_with_unreadable
    (retry : bool -> bool -> M (option bool))
    (path : string) (update_image : bool) (s : state) (rest : list string) :
  fs w path = Unreadable ->
  Py.remove path (paths s) = Some rest ->
  show_image_with w retry path update_image s
  = (retry false false ;; ret 1)
      (set_messages (messages s ++ ["Error: file not accessible"%string])
         (set_paths rest s)).
Proof.
  intros Hfs Hrm. unfold show_image_with. rewrite Hfs.
  unfold try_except_on. unfold bind at 1. unfold bind at 1.
  cbn [raise Py.exn_eqb]. unfold bind at 1, get at 1. unfold bind at 1.
  rewrite Hrm. cbn [or_raise ret].
  unfold bind at 1, assign at 1, modify at 1.
  unfold bind at 1, err_message at 1, modify at 1.
  reflexivity.
Qed.



End Retry.

Section Fuel.

Variable w : world.

Lemma check_for_edit_eq (force : bool) (s : state) :
  check_for_edit force s
  = match paths s with
    | [] => (Returned false, s)
    | _ =>
        match Py.getitem (paths s) (index s) with
        | Some p =>
            if Py.contains "EDIT" p && negb force then
              (Returned true,
               set_messages
                 (messages s
                  ++ ["Image has been edited, add ! to force"%string]) s)
            else (Returned false, s)
        | None => (Raised Py.IndexError, s)
        end
    end.
Proof.
  unfold check_for_edit, bind, get.
  destruct (paths s) as [|q ps]; [reflexivity|].
  destruct (Py.getitem (q :: ps) (index s)) as [p|]; cbn [or_raise ret raise];
    [|reflexivity].
  destruct (Py.contains "EDIT" p && negb force); reflexivity.
Qed.






End Fuel.

Section FirstEntry.

Variable w : world.

Lemma finish_move_messages (returncode : Z) (s : state) :
  slideshow_running s = false ->
  messages (snd (finish_move returncode s)) = messages s.
Proof.
  intros Hrun. unfold finish_move, num_clear.
  unfold assign, modify, bind, get, ret. cbn. rewrite Hrun. reflexivity.
Qed.

Lemma landed_slideshow (step : Z) (s : state) :
  slideshow_running (landed step s) = slideshow_running s.
Proof. unfold landed. cbv zeta. destruct (shuffle s && _ && _); reflexivity. Qed.

(** With the slideshow off a move over files that decode is silent. *)
Lemma navigate_keeps_messages (show : string -> bool -> M Z)
    (forward key : bool) (delta : Z) (s : state) :
  key && nonempty (num_str s) = false ->
  paths s <> [] ->
  (forall p u, In p (paths s) -> quiet (show p u)) ->
  slideshow_running s = false ->
  messages (snd (navigate_with show forward key delta s)) = messages s.
Proof.
  intros Hkey Hne Hshow Hrun.
  set (step := if forward then delta else delta * -1).
  destruct (@getitem_in_range _ (paths (landed step s))
              (index (landed step s)) (@landed_in_range s step Hne))
    as (path & Hpath & Hin).
  assert (Hin' : In path (paths s)).
  { eapply Permutation_in; [apply (@landed_perm s step)|exact Hin]. }
  rewrite (@navigate_with_landed show forward key delta s path Hkey Hpath).
  fold step.
  destruct (@landed_flags s step) as (_ & _ & _ & Fm).
  destruct (Hshow path (negb (step =? 0)) Hin' (landed step s))
    as (Hnav & _ & _).
  unfold bind.
  destruct (show path (negb (step =? 0)) (landed step s))
    as [[rc|e|] s1]; cbn [fst snd] in *;
    unfold nav in Hnav; injection Hnav as _ _ _ _ Hm _ _ Hr _ _.
  - rewrite finish_move_messages; [congruence|].
    rewrite Hr. rewrite landed_slideshow. exact Hrun.
  - congruence.
  - congruence.
Qed.


End FirstEntry.

(** * Further properties of the image widget *)

(** ** Observations a computation keeps *)

Section Keeps.

Context {X : Type} (f : state -> X).

Lemma keeps_ret {A} (a : A) : keeps f (ret a).
Proof. intros s. reflexivity. Qed.

Lemma keeps_raise {A} (e : Py.exn) : keeps f (@raise A e).
Proof. intros s. reflexivity. Qed.

Lemma keeps_get {A} (g : state -> A) : keeps f (get g).
Proof. intros s. reflexivity. Qed.

Lemma keeps_or_raise {A} (e : Py.exn) (o : option A) : keeps f (or_raise e o).
Proof. destruct o; [apply keeps_ret|apply keeps_raise]. Qed.

Lemma keeps_modify (g : state -> state) :
  (forall s, f (g s) = f s) -> keeps f (modify g).
Proof. intros H s. apply H. Qed.

Lemma keeps_bind {A B} (m : M A) (k : A -> M B) :
  keeps f m -> (forall a, keeps f (k a)) -> keeps f (bind m k).
Proof.
  intros Hm Hk s. unfold bind. specialize (Hm s).
  destruct (m s) as [[a| e |] s1]; cbn [fst snd] in *; try exact Hm.
  rewrite (Hk a s1). exact Hm.
Qed.

Lemma keeps_try_except {A} (m h : M A) :
  keeps f m -> keeps f h -> keeps f (try_except m h).
Proof.
  intros Hm Hh s. unfold try_except. specialize (Hm s).
  destruct (m s) as [[a| e |] s1]; cbn [fst snd] in *; try exact Hm.
  rewrite (Hh s1). exact Hm.
Qed.

End Keeps.

Ltac keeps_step :=
  match goal with
  | |- keeps _ (bind _ _) => apply keeps_bind; [|intros ?]
  | |- keeps _ (ret _) => apply keeps_ret
  | |- keeps _ (get _) => apply keeps_get
  | |- keeps _ (raise _) => apply keeps_raise
  | |- keeps _ (or_raise _ _) => apply keeps_or_raise
  | |- keeps _ (try_except _ _) => apply keeps_try_except
  | |- keeps _ (assign _ _) => apply keeps_modify; intros ?; reflexivity
  | |- keeps _ (err_message _) => apply keeps_modify; intros ?; reflexivity
  | |- keeps _ update_info => apply keeps_modify; intros ?; reflexivity
  | |- keeps _ (modify _) => apply keeps_modify; intros ?; reflexivity
  | |- keeps _ (if ?b then _ else _) => destruct b
  | |- keeps _ (match ?x with _ => _ end) => destruct x
  end.

Ltac keeps_auto := repeat keeps_step.

(** ** Zooming and the animation *)

Section ZoomKeepsPlayback.

Variable w : world.

Lemma keeps_playback_pixbuf_size : keeps playback pixbuf_size.
Proof. unfold pixbuf_size. keeps_auto. Qed.

Lemma keeps_playback_scale_image : keeps playback (scale_image w).
Proof. unfold scale_image. keeps_auto. Qed.

(** [update(update_gif=False)] redraws without touching the timer. *)
Lemma keeps_playback_update (update_info_ : bool) :
  keeps playback (update w update_info_ false).
Proof.
  unfold update.
  repeat first [ apply keeps_playback_pixbuf_size
               | apply keeps_playback_scale_image | keeps_step ].
Qed.

Lemma keeps_playback_fit (z_width z_height : bool) :
  keeps playback (get_zoom_percent_to_fit z_width z_height).
Proof.
  unfold get_zoom_percent_to_fit.
  repeat first [ apply keeps_playback_pixbuf_size | keeps_step ].
Qed.

Lemma keeps_playback_unreasonable (low : Z) :
  keeps playback (unreasonable w low).
Proof.
  unfold unreasonable.
  repeat first [ apply keeps_playback_pixbuf_size | keeps_step ].
Qed.

Lemma keeps_playback_parse_percent (percent : string) :
  keeps playback (parse_percent percent).
Proof.
  unfold parse_percent.
  destruct percent as [|c rest]; [keeps_auto|].
  destruct c as [[] [] [] [] [] [] [] []]; keeps_auto.
Qed.

(** Neither zoom method starts, stops or re-arms the animation: the
    scheduled callbacks, [timer_id] and the iterator are the same after
    the call as before, whatever the arguments and however it ends. *)
Theorem zoom_keeps_playback (s : state) (delta percent : Py.num)
    (z_width z_height : bool) :
  playback (snd (zoom_delta w delta s)) = playback s
  /\ playback (snd (zoom_to w percent z_width z_height s)) = playback s.
Proof.
  split.
  - revert s. change (keeps playback (zoom_delta w delta)).
    unfold zoom_delta.
    repeat first [ apply keeps_playback_update
                 | apply keeps_playback_unreasonable | keeps_step ].
  - revert s. change (keeps playback (zoom_to w percent z_width z_height)).
    unfold zoom_to.
    repeat first [ apply keeps_playback_update
                 | apply keeps_playback_unreasonable
                 | apply keeps_playback_fit
                 | apply keeps_playback_parse_percent | keeps_step ].
Qed.

End ZoomKeepsPlayback.

(** ** Which zoom calls come back *)

Section Returns.

Lemma returns_ret {A} (a : A) : returns (ret a).
Proof. intros s. exists a. reflexivity. Qed.

Lemma returns_get {A} (g : state -> A) : returns (get g).
Proof. intros s. eexists. reflexivity. Qed.

Lemma returns_modify (g : state -> state) : returns (modify g).
Proof. intros s. exists tt. reflexivity. Qed.

Lemma returns_bind {A B} (m : M A) (k : A -> M B) :
  returns m -> (forall a, returns (k a)) -> returns (bind m k).
Proof.
  intros Hm Hk s. unfold bind. destruct (Hm s) as [a Ha].
  destruct (m s) as [[a'| e |] s1]; cbn [fst] in Ha; try discriminate.
  apply Hk.
Qed.

(** A bare [except] whose handler returns makes the whole statement
    return, provided the body is not cut short by the depth bound. *)
Lemma returns_try_except {A} (m h : M A) :
  calm m -> returns h -> returns (try_except m h).
Proof.
  intros Hm Hh s. unfold try_except. destruct (Hm s) as (Hf & _).
  destruct (m s) as [[a| e |] s1]; cbn [fst] in *.
  - exists a. reflexivity.
  - apply Hh.
  - contradiction.
Qed.

End Returns.

Ltac returns_step :=
  match goal with
  | |- returns (bind _ _) => apply returns_bind; [|intros ?]
  | |- returns (ret _) => apply returns_ret
  | |- returns (get _) => apply returns_get
  | |- returns (assign _ _) => apply returns_modify
  | |- returns (err_message _) => apply returns_modify
  | |- returns (modify _) => apply returns_modify
  | |- returns (if ?b then _ else _) => destruct b
  | |- returns (match ?x with _ => _ end) => destruct x
  end.

Section ZoomReturns.

Variable w : world.

Lemma quiet_unreasonable (low : Z) : quiet (unreasonable w low).
Proof.
  unfold unreasonable.
  repeat first [ apply quiet_pixbuf_size | quiet_step ].
Qed.

Lemma quiet_parse_percent (percent : string) : quiet (parse_percent percent).
Proof.
  unfold parse_percent.
  destruct percent as [|c rest]; [quiet_auto|].
  destruct c as [[] [] [] [] [] [] [] []]; quiet_auto.
Qed.

(** [zoom_to] catches whatever happens inside it: from every state and
    for every argument it returns. *)
Theorem zoom_to_always_returns (s : state) (percent : Py.num)
    (z_width z_height : bool) :
  fst (zoom_to w percent z_width z_height s) = Returned tt.
Proof.
  assert (R : returns (zoom_to w percent z_width z_height)).
  { unfold zoom_to.
    repeat first
      [ returns_step
      | match goal with
        | |- returns (try_except _ _) =>
            apply returns_try_except;
            [apply quiet_calm;
             repeat first [ apply quiet_update | apply quiet_unreasonable
                          | apply quiet_get_zoom_percent_to_fit
                          | apply quiet_parse_percent | quiet_step ]|]
        end ]. }
  destruct (R s) as [[] E]. exact E.
Qed.

(** [zoom_delta] returns as well, from every state, for every step
    other than -1. *)
Theorem zoom_delta_returns (s : state) (delta : Py.num) :
  (Py.of_Z 1 + delta)%Qc <> 0%Qc ->
  fst (zoom_delta w delta s) = Returned tt.
Proof.
  intros Hnz.
  assert (R : returns (zoom_delta w delta)).
  { unfold zoom_delta.
    apply returns_bind; [apply returns_get|intros th].
    destruct th; [apply returns_ret|].
    apply returns_try_except.
    - apply quiet_calm.
      repeat first [ apply quiet_update | apply quiet_unreasonable
                   | quiet_step ].
    - apply returns_bind; [apply returns_get|intros zp].
      unfold Py.div.
      destruct (Py.is_zero (Py.of_Z 1 + delta)%Qc) eqn:E.
      + apply is_zero_iff in E. contradiction.
      + cbn [or_raise]. repeat returns_step. }
  destruct (R s) as [[] E]. exact E.
Qed.

End ZoomReturns.

Lemma zoom_delta_returns_witness :
  fst (zoom_delta Demo.desk (Q2Qc (1 # 4)) Demo.icon_shown) = Returned tt.
Proof.
  apply zoom_delta_returns. intros H. discriminate H.
Defined.

(** ** The timer under [play_gif], [pause_gif] and [show_image] *)

Section Timer.

Lemma filter_self (n : nat) :
  filter (fun x => negb (Nat.eqb x n)) [n] = [].
Proof. cbn. rewrite Nat.eqb_refl. reflexivity. Qed.

(** [pause_gif] with a callback scheduled: the callback is removed and
    forgotten. *)
Lemma pause_gif_running (s : state) :
  one_timer s ->
  pause_gif s = (Returned tt, set_timer_id O (set_sources [] s)).
Proof.
  intros (Hs & _ & Hnz). unfold pause_gif, source_remove.
  unfold bind, get, assign, modify. cbn.
  destruct (Nat.eqb_spec (timer_id s) 0) as [E|_]; [contradiction|].
  cbn. rewrite Hs, filter_self. reflexivity.
Qed.

(** [pause_gif] with nothing scheduled only redraws the current frame. *)
Lemma pause_gif_idle (s : state) (it : anim_iter) :
  timer_id s = O -> pixbuf_iter s = Some it ->
  pause_gif s = (Returned tt, s).
Proof.
  intros Ht Hit. unfold pause_gif, the_iter.
  unfold bind, get, or_raise, ret. rewrite Ht. cbn. rewrite Hit. reflexivity.
Qed.

(** Pausing stops the playback, and pausing again changes nothing. *)
Theorem pause_gif_stops (s : state) (it : anim_iter) :
  one_timer s ->
  pixbuf_iter s = Some it ->
  let s1 := snd (pause_gif s) in
  fst (pause_gif s) = Returned tt
  /\ no_timer s1
  /\ pause_gif s1 = (Returned tt, s1).
Proof.
  intros H1 Hit s1. subst s1. rewrite (pause_gif_running H1). cbn [fst snd].
  split; [reflexivity|]. split; [split; reflexivity|].
  apply pause_gif_idle with (it := it); [reflexivity|exact Hit].
Qed.

(** [play_gif] with an iterator at hand. *)
Lemma play_gif_eq (s : state) (it : anim_iter) :
  pixbuf_iter s = Some it ->
  play_gif s
  = match advances it with
    | [] => (Returned tt, s)
    | false :: rest =>
        (Returned tt,
         set_pixbuf_iter (Some (AnimIter rest (delay_time it))) s)
    | true :: rest =>
        (Returned tt,
         set_timer_id (next_source s)
           (set_next_source (S (next_source s))
              (set_sources
                 (filter (fun x => negb (Nat.eqb x (timer_id s))) (sources s)
                  ++ [next_source s])
                 (set_pixbuf_iter (Some (AnimIter rest (delay_time it))) s))))
    end.
Proof.
  intros Hit.
  unfold play_gif, iter_advance, the_iter, timeout_add, source_remove.
  unfold or_raise, assign, modify, bind, get, ret, raise. cbn.
  repeat (rewrite Hit; cbn).
  destruct (advances it) as [|[|] rest]; reflexivity.
Qed.

(** A frame of the animation: when the iterator advances, the pending
    callback is replaced by a new one; when it does not, nothing is
    scheduled or removed.  Either way one callback is pending. *)
Theorem play_gif_keeps_one_timer (s : state) (it : anim_iter) :
  one_timer s ->
  pixbuf_iter s = Some it ->
  fst (play_gif s) = Returned tt /\ one_timer (snd (play_gif s)).
Proof.
  intros (Hs & Hlt & Hnz) Hit. rewrite (play_gif_eq s Hit).
  destruct (advances it) as [|[|] rest]; cbn [fst snd].
  - repeat split; assumption.
  - split; [reflexivity|]. unfold one_timer. cbn.
    rewrite Hs, filter_self. cbn. repeat split; lia.
  - repeat split; assumption.
Qed.

End Timer.

Lemma pause_gif_stops_witness :
  no_timer (snd (pause_gif Demo.gif_playing)).
Proof.
  refine (proj1 (proj2 (@pause_gif_stops Demo.gif_playing
                          (AnimIter [true; true] 100) _ _))).
  - unfold one_timer. cbn. repeat split; [lia|discriminate].
  - reflexivity.
Defined.

Lemma play_gif_keeps_one_timer_witness :
  one_timer (snd (play_gif Demo.gif_playing)).
Proof.
  refine (proj2 (@play_gif_keeps_one_timer Demo.gif_playing
                   (AnimIter [true; true] 100) _ _)).
  - unfold one_timer. cbn. repeat split; [lia|discriminate].
  - reflexivity.
Defined.

(** ** The fitting zoom when the viewport has no height *)

Section FitEdges.

Variable s : state.
Variables pbo_width pbo_height : positive.
Hypothesis size : pixbuf_size s = (Returned (pbo_width, pbo_height), s).

Lemma fit_zero_height (z_width z_height : bool) :
  snd (imsize s) = 0 ->
  get_zoom_percent_to_fit z_width z_height s
  = (Raised Py.ZeroDivisionError, s).
Proof.
  intros Hz. unfold get_zoom_percent_to_fit, bind at 1. rewrite size.
  cbn [fst snd]. rewrite !div_of_Z by discriminate.
  cbn [or_raise]. unfold bind, ret, get. rewrite Hz. reflexivity.
Qed.

Lemma fit_nonzero_height (z_width z_height : bool) :
  snd (imsize s) <> 0 ->
  exists z, get_zoom_percent_to_fit z_width z_height s = (Returned z, s).
Proof.
  intros Hnz. unfold get_zoom_percent_to_fit, bind at 1. rewrite size.
  cbn [fst snd]. rewrite !div_of_Z by discriminate.
  cbn [or_raise]. unfold bind, ret, get.
  rewrite (div_of_Z _ Hnz). cbn [or_raise]. unfold ret.
  destruct ((Zpos pbo_width <? fst (imsize s))
            && (Zpos pbo_height <? snd (imsize s))
            && negb (z_width || z_height || overzoom s)); [eauto|].
  destruct (Py.ltb _ _ && negb (z_width || z_height) || z_height);
    rewrite div_of_Z by discriminate; cbn [or_raise]; unfold ret; eauto.
Qed.

End FitEdges.

(** With an image loaded, [get_zoom_percent_to_fit] raises exactly when
    the height of the image area is 0, and then it is ZeroDivisionError;
    the flags and the width play no part, and the state is never
    changed. *)
Theorem fit_raises_iff_no_height
    (s : state) (pbo_width pbo_height : positive) (z_width z_height : bool) :
  pixbuf_size s = (Returned (pbo_width, pbo_height), s) ->
  let r := get_zoom_percent_to_fit z_width z_height s in
  (snd (imsize s) = 0 -> fst r = Raised Py.ZeroDivisionError)
  /\ (snd (imsize s) <> 0 -> exists z, fst r = Returned z)
  /\ snd r = s.
Proof.
  intros Hsize r. subst r.
  destruct (Z.eq_dec (snd (imsize s)) 0) as [E|N].
  - rewrite (fit_zero_height Hsize z_width z_height E). cbn [fst snd].
    repeat split; [contradiction].
  - destruct (fit_nonzero_height Hsize z_width z_height N) as [z Ez].
    rewrite Ez. cbn [fst snd]. split; [contradiction|].
    split; [eauto|reflexivity].
Qed.

Lemma fit_raises_iff_no_height_witness :
  fst (get_zoom_percent_to_fit false false
         (set_imsize (100, 0) Demo.icon_shown))
  = Raised Py.ZeroDivisionError.
Proof.
  refine (proj1 (@fit_raises_iff_no_height
                   (set_imsize (100, 0) Demo.icon_shown) 100 100 false false
                   _) _); reflexivity.
Defined.

(** ** The fitting zoom along one axis *)

(** With an axis flag the native-size shortcut, the overzoom setting and
    the comparison of the two scales play no part: [z_height] gives the
    quotient of the available height by the height of the image,
    whatever [z_width] is, and [z_width] alone gives the quotient of the
    widths.  The available height must not be 0: the scale of the image
    area is computed in every case. *)
Theorem fit_axis_flags
    (s : state) (pbo_width pbo_height : positive)
    (z_width z_height : bool) :
  pixbuf_size s = (Returned (pbo_width, pbo_height), s) ->
  snd (imsize s) <> 0 ->
  z_width || z_height = true ->
  get_zoom_percent_to_fit z_width z_height s
  = (Returned
       (if z_height
        then (Py.of_Z (snd (imsize s)) / Py.of_Z (Zpos pbo_height))%Qc
        else (Py.of_Z (fst (imsize s)) / Py.of_Z (Zpos pbo_width))%Qc), s).
Proof.
  intros Hsize Hnz Hflag.
  unfold get_zoom_percent_to_fit, bind at 1. rewrite Hsize.
  cbn [fst snd]. rewrite !div_of_Z by discriminate.
  cbn [or_raise]. unfold bind, ret, get.
  rewrite (div_of_Z _ Hnz). cbn [or_raise]. unfold ret.
  rewrite Hflag. cbn [orb negb]. rewrite !andb_false_r. cbn [orb].
  destruct z_height; rewrite div_of_Z by discriminate; reflexivity.
Qed.

Lemma fit_axis_flags_witness :
  get_zoom_percent_to_fit true true Demo.icon_shown
  = (Returned (Py.of_Z 200 / Py.of_Z 100)%Qc, Demo.icon_shown).
Proof.
  apply (@fit_axis_flags Demo.icon_shown 100 100 true true).
  - reflexivity.
  - discriminate.
  - reflexivity.
Defined.

(** ** Showing a picture *)

Lemma bind_raised_first {A B} (m : M A) (k : A -> M B) s e s' :
  m s = (Raised e, s') -> bind m k s = (Raised e, s').
Proof. intros E. unfold bind. rewrite E. reflexivity. Qed.

Section Show.

Variable w : world.




Lemma stop_if_running (s : state) :
  one_timer s \/ no_timer s ->
  (tid <- get timer_id ;;
   if negb (Nat.eqb tid 0) then pause_gif else ret tt) s
  = (Returned tt, stopped s).
Proof.
  intros [H1|(Hs & Ht)]; unfold bind at 1, get at 1, stopped.
  - destruct H1 as (Hs & Hlt & Hnz).
    destruct (Nat.eqb_spec (timer_id s) 0); [contradiction|]. cbn [negb].
    apply pause_gif_running. repeat split; assumption.
  - rewrite Ht. reflexivity.
Qed.



End Show.

Section ShowReadable.

Variable w : world.
Variable retry : bool -> bool -> M (option bool).

(** [show_image] on a file that decodes never reaches its handler. *)
Lemma show_image_with_readable (path : string) (update_image : bool)
    (wd ht : positive) (st : bool) (adv : list bool) (dl : Z) (s : state) :
  fs w path = ImageFile wd ht st adv dl ->
  show_image_with w retry path update_image s
  = (errorcode <- (assign set_pixbuf_original
                     (PixbufAnimation wd ht st adv dl) ;; ret 0) ;;
     pb <- get pixbuf_original ;;
     static <-
       match pb with
       | PixbufAnimationClass => raise Py.TypeError
       | Pixbuf _ _ => raise Py.AttributeError
       | PixbufAnimation _ _ static _ _ => ret static
       end ;;
     (if static then
        sz <- pixbuf_size ;;
        assign set_pixbuf_original (Pixbuf (fst sz) (snd sz)) ;;
        assign set_imsize (get_available_size w) ;;
        zp <- get_zoom_percent_to_fit false false ;;
        assign set_zoom_percent zp
      else
        match pb with
        | PixbufAnimation _ _ _ adv delay =>
            assign set_pixbuf_iter (Some (AnimIter adv delay))
        | _ => ret tt
        end ;;
        assign set_zoom_percent (Py.of_Z 1)) ;;
     tid <- get timer_id ;;
     (if negb (Nat.eqb tid 0) then pause_gif else ret tt) ;;
     update w update_image true ;;
     ret errorcode) s.
Proof.
  intros Hfs.
  assert (Hr : readable w path = true) by (unfold readable; rewrite Hfs; reflexivity).
  pose proof (@quiet_show_image_with w retry path update_image Hr) as Hq.
  unfold show_image_with in Hq |- *. rewrite Hfs in Hq |- *.
  apply try_except_on_calm.
  apply quiet_calm.
  repeat first [ apply quiet_pixbuf_size | apply quiet_pause_gif
               | apply quiet_update | apply quiet_get_zoom_percent_to_fit
               | quiet_step ].
Qed.


End ShowReadable.

Section ShowStatic.

Variable w : world.
Variable retry : bool -> bool -> M (option bool).

Lemma loaded_static_size (wd ht : positive) (st : bool)
    (adv : list bool) (dl : Z) (s : state) :
  pixbuf_size (loaded_static w wd ht st adv dl s)
  = (Returned (wd, ht), loaded_static w wd ht st adv dl s).
Proof. reflexivity. Qed.

(** Loading a static picture when the image area has no height: the
    fitting zoom raises, and nothing catches it. *)
Lemma show_image_static_no_height (path : string) (update_image : bool)
    (wd ht : positive) (adv : list bool) (dl : Z) (s : state) :
  fs w path = ImageFile wd ht true adv dl ->
  snd (get_available_size w) = 0 ->
  show_image_with w retry path update_image s
  = (Raised Py.ZeroDivisionError, loaded_static w wd ht true adv dl s).
Proof.
  intros Hfs Hz. erewrite show_image_with_readable by exact Hfs.
  erewrite bind_returned by reflexivity. cbv beta.
  erewrite bind_returned by reflexivity. cbv beta.
  erewrite bind_returned by reflexivity. cbv beta iota.
  apply bind_raised_first.
  erewrite bind_returned by reflexivity. cbv beta.
  erewrite bind_returned by reflexivity. cbv beta.
  erewrite bind_returned by reflexivity. cbv beta.
  apply bind_raised_first.
  apply (fit_zero_height (loaded_static_size wd ht true adv dl s)).
  exact Hz.
Qed.


End ShowStatic.


(** A static picture that decodes cannot be shown while the image area
    has no height: [show_image] ends in ZeroDivisionError.  The list,
    the index, the statusbar and the timer are as before the call. *)
Theorem show_image_no_height
    (w : world) (n : nat) (s : state) (path : string) (update_image : bool)
    (wd ht : positive) (adv : list bool) (dl : Z) :
  fs w path = ImageFile wd ht true adv dl ->
  snd (get_available_size w) = 0 ->
  let r := show_image w (S n) path update_image s in
  fst r = Raised Py.ZeroDivisionError
  /\ nav (snd r) = nav s
  /\ playback (snd r) = playback s.
Proof.
  intros Hfs Hz r. subst r. cbn [show_image].
  erewrite show_image_static_no_height by eassumption.
  repeat split.
Qed.




Lemma show_image_no_height_witness :
  fst (show_image Demo.squeezed 1 "a.jpg" true Demo.marker_ahead)
  = Raised Py.ZeroDivisionError.
Proof.
  refine (proj1 (@show_image_no_height Demo.squeezed 0 Demo.marker_ahead
                   "a.jpg" true 800 600 [] (-1) _ _)); reflexivity.
Defined.



(** ** Pausing and resuming *)



(** ** Zoom requests that are turned down, and animations *)

Lemma zoom_delta_rejected_divides_back_witness :
  messages (snd (zoom_delta Demo.desk (Q2Qc (-3 # 4)) Demo.icon_shown))
  = messages Demo.icon_shown
    ++ ["Warning: Object cannot be zoomed (further)"%string].
Proof.
  refine (proj1 (proj2 (proj2 (@zoom_delta_rejected_divides_back Demo.desk
                          Demo.icon_shown (Q2Qc (-3 # 4)) 100 100 _ _ _ _)))).
  - reflexivity.
  - reflexivity.
  - intros H. discriminate H.
  - reflexivity.
Defined.

(** [zoom_to] with an explicit percentage that the size test turns down:
    the warning is reported and [zoom_percent] is what it was; the call
    has, all the same, refreshed [imsize] and reset [user_zoomed]. *)
Theorem zoom_to_rejected_restores
    (w : world) (s : state) (percent : Py.num) (z_width z_height : bool)
    (pbo_width pbo_height : positive) :
  thumbnail_toggled s = false ->
  num_str s = EmptyString ->
  Py.is_zero percent = false ->
  pixbuf_size s = (Returned (pbo_width, pbo_height), s) ->
  (let shown := (Py.of_pos pbo_height * percent)%Qc in
   Py.ltb shown (Py.of_Z 5)
   || Py.ltb (Py.of_Z (fst (window_size w) * 5)) shown) = true ->
  let r := zoom_to w percent z_width z_height s in
  fst r = Returned tt
  /\ zoom_percent (snd r) = zoom_percent s
  /\ messages (snd r)
     = messages s ++ ["Warning: Object cannot be zoomed (further)"%string]
  /\ imsize (snd r) = get_available_size w
  /\ user_zoomed (snd r) = false.
Proof.
  intros Hth Hns Hnz Hsize Hbad r.
  assert (E : r = (Returned tt,
                   set_messages
                     (messages s
                      ++ ["Warning: Object cannot be zoomed (further)"%string])
                     (set_zoom_percent (zoom_percent s)
                        (set_zoom_percent percent
                           (set_imsize (get_available_size w)
                              (set_user_zoomed false s)))))).
  { subst r. unfold zoom_to. unfold bind at 1, get at 1. rewrite Hth.
    erewrite bind_returned by reflexivity. cbv beta.
    erewrite bind_returned by reflexivity. cbv beta.
    erewrite bind_returned by reflexivity. cbv beta.
    cbn [num_str set_user_zoomed]. rewrite Hns. cbn [nonempty].
    erewrite bind_returned by reflexivity. cbv beta iota.
    erewrite bind_returned by reflexivity. cbv beta.
    unfold pixbuf_size, bind, get in Hsize.
    unfold try_except, unreasonable, pixbuf_size.
    unfold bind, get, assign, modify, ret, raise.
    rewrite Hnz. cbn in *.
    destruct (pixbuf_original s); cbn in *; try discriminate;
      injection Hsize as -> ->; rewrite Hbad; reflexivity. }
  rewrite E. repeat split.
Qed.

Lemma zoom_to_rejected_restores_witness :
  zoom_percent (snd (zoom_to Demo.desk (Py.of_Z 150) false false
                       Demo.icon_shown))
  = zoom_percent Demo.icon_shown.
Proof.
  refine (proj1 (proj2 (@zoom_to_rejected_restores Demo.desk Demo.icon_shown
                          (Py.of_Z 150) false false 100 100 _ _ _ _ _)));
    reflexivity.
Defined.

(** An animation cannot be zoomed: a step that passes the size test is
    undone by the redraw, which fails to scale the animation and puts
    [zoom_percent] back to 1, although [user_zoomed] is set and nothing
    is reported. *)
Theorem zoom_delta_on_animation
    (w : world) (s : state) (delta : Py.num)
    (wd ht : positive) (st : bool) (adv : list bool) (dl : Z) :
  thumbnail_toggled s = false ->
  paths s <> [] ->
  pixbuf_original s = PixbufAnimation wd ht st adv dl ->
  (let shown := (Py.of_pos ht
                 * (zoom_percent s * (Py.of_Z 1 + delta)))%Qc in
   Py.ltb shown (Py.of_Z 50)
   || Py.ltb (Py.of_Z (fst (window_size w) * 5)) shown) = false ->
  let r := zoom_delta w delta s in
  fst r = Returned tt
  /\ zoom_percent (snd r) = Py.of_Z 1
  /\ user_zoomed (snd r) = true
  /\ messages (snd r) = messages s.
Proof.
  intros Hth Hps Hpb Hok r. cbv zeta in Hok.
  set (s1 := set_user_zoomed true
               (set_zoom_percent (zoom_percent s * (Py.of_Z 1 + delta))%Qc s)).
  assert (Hpb1 : pixbuf_original s1 = PixbufAnimation wd ht st adv dl)
    by exact Hpb.
  destruct (scale_image_animation w s1 Hpb1) as [e He].
  assert (Eu : update w true false s1
               = (Returned tt,
                  set_info_updates (S (info_updates s1))
                    (set_zoom_percent (Py.of_Z 1) s1))).
  { unfold update. unfold bind at 1, get at 1.
    change (paths s1) with (paths s).
    destruct (paths s) as [|p ps] eqn:Eps; [contradiction|].
    assert (Hsz : pixbuf_size s1 = (Returned (wd, ht), s1)).
    { unfold pixbuf_size, bind, get. rewrite Hpb1. reflexivity. }
    rewrite (bind_returned _ _ _ Hsz).
    unfold bind at 1. rewrite (try_except_raised _ _ _ He). reflexivity. }
  assert (E : r = (Returned tt,
                   set_info_updates (S (info_updates s1))
                     (set_zoom_percent (Py.of_Z 1) s1))).
  { subst r. unfold zoom_delta. unfold bind at 1, get at 1. rewrite Hth.
    unfold try_except.
    erewrite bind_returned by reflexivity. cbv beta.
    erewrite bind_returned by reflexivity. cbv beta.
    erewrite bind_returned.
    2:{ unfold unreasonable, pixbuf_size.
        erewrite bind_returned
          by (unfold bind, get; cbn [pixbuf_original set_zoom_percent];
              rewrite Hpb; reflexivity).
        cbv beta. erewrite bind_returned by reflexivity. cbv beta.
        cbn [snd zoom_percent set_zoom_percent]. rewrite Hok. reflexivity. }
    cbv beta iota.
    erewrite bind_returned by reflexivity. cbv beta.
    erewrite bind_returned by reflexivity. cbv beta.
    fold s1. rewrite Eu. reflexivity. }
  rewrite E. repeat split.
Qed.

Lemma zoom_delta_on_animation_witness :
  zoom_percent (snd (zoom_delta Demo.desk (Q2Qc (1 # 4)) Demo.gif_loaded))
  = Py.of_Z 1.
Proof.
  refine (proj1 (proj2 (@zoom_delta_on_animation Demo.desk Demo.gif_loaded
                          (Q2Qc (1 # 4)) 64 64 false [true; true; true] 100
                          _ _ _ _))); try reflexivity.
  discriminate.
Defined.

(** ** More on moving in the list *)

Section MoreMoves.

Variable w : world.



End MoreMoves.

Section Prefix.

Variable w : world.



End Prefix.



(** ** Jumping, continued *)

Section Jump.

Variable w : world.

(** [move_pos] past its guard and its range test. *)
Lemma move_pos_with_go
    (move : bool -> bool -> Z -> bool -> M (option bool))
    (forward force : bool) (s : state) (pos : Z) :
  check_for_edit force s = (Returned false, s) ->
  target_position forward s = Some pos ->
  0 <= pos <= Z.of_nat (length (paths s)) ->
  move_pos_with move forward force s
  = ((if thumbnail_toggled s then assign set_thumbnail_pos (pos - 1)
      else (move true false (pos - index s - 1) false ;;
            assign set_user_zoomed false)) ;;
     num_clear ;;
     ret (Some true)) s.
Proof.
  intros Hedit Hpos Hrange. unfold move_pos_with.
  unfold bind at 1, try_except at 1, bind at 1. rewrite Hedit.
  cbn [ret]. unfold bind at 1, get at 1. unfold bind at 1, get_pos, get at 1.
  unfold bind at 1, get at 1.
  assert (Ep : (if nonempty (num_str s)
                then or_raise Py.ValueError (Py.int (num_str s))
                else if forward then ret (Z.of_nat (length (paths s)))
                     else ret 1) s = (Returned pos, s)).
  { unfold target_position in Hpos. destruct (nonempty (num_str s)).
    - rewrite Hpos. reflexivity.
    - injection Hpos as <-. destruct forward; reflexivity. }
  rewrite (bind_returned _ _ _ Ep).
  unfold bind at 1, try_except at 1.
  replace ((pos <? 0) || (pos >? Z.of_nat (length (paths s)))) with false.
  2:{ symmetry. destruct (Z.ltb_spec pos 0); [lia|].
      destruct (Z.gtb_spec pos (Z.of_nat (length (paths s))));
        [lia|reflexivity]. }
  cbn [ret negb]. unfold bind at 1, get at 1.
  destruct (thumbnail_toggled s); reflexivity.
Qed.



(** In thumbnail mode [move_pos] hands the position, less 1, to the
    thumbnail view and clears the prefix; CurrentIndex and the list are
    not touched and no picture is shown. *)
Theorem move_pos_in_thumbnail_mode
    (fuel : nat) (s : state) (forward force : bool) (pos : Z) :
  thumbnail_toggled s = true ->
  check_for_edit force s = (Returned false, s) ->
  target_position forward s = Some pos ->
  0 <= pos <= Z.of_nat (length (paths s)) ->
  move_pos w fuel forward force s
  = (Returned (Some true),
     set_num_str EmptyString (set_thumbnail_pos (pos - 1) s)).
Proof.
  intros Hth Hedit Hpos Hrange. unfold move_pos.
  rewrite (@move_pos_with_go (move_index w fuel) forward force s pos
             Hedit Hpos Hrange).
  rewrite Hth. reflexivity.
Qed.

End Jump.



Lemma move_pos_in_thumbnail_mode_witness :
  thumbnail_pos (snd (move_pos Demo.desk 1 true true
                        Demo.in_thumbnail_mode)) = 2 - 1.
Proof.
  rewrite (@move_pos_in_thumbnail_mode Demo.desk 1 Demo.in_thumbnail_mode
             true true 2).
  - reflexivity.
  - reflexivity.
  - reflexivity.
  - reflexivity.
  - cbn. lia.
Defined.

(** ** An unreadable file at the end of the list *)

Section LastEntry.

Variable w : world.

Lemma getitem_at_length {A} (l : list A) :
  Py.getitem l (Z.of_nat (length l)) = None.
Proof.
  unfold Py.getitem.
  destruct (Z.ltb_spec (Z.of_nat (length l)) (Z.of_nat (length l))); [lia|].
  rewrite andb_false_r.
  destruct (Z.ltb_spec (Z.of_nat (length l)) 0); [lia|].
  rewrite andb_false_r. reflexivity.
Qed.

(** When the unreadable file was the last entry and the current one, the
    retry does nothing: the guard of [move_pos] fails on the index, which
    now points past the end, and [move_pos] returns in silence.
    [show_image] returns 1 with the path removed and the error reported,
    and CurrentIndex is left outside the list. *)
Theorem unreadable_last_entry
    (n : nat) (s : state) (path : string) (rest : list string)
    (update_image : bool) :
  fs w path = Unreadable ->
  Py.remove path (paths s) = Some rest ->
  rest <> [] ->
  index s = Z.of_nat (length rest) ->
  let r := show_image w (S n) path update_image s in
  r = (Returned 1,
       set_messages (messages s ++ ["Error: file not accessible"%string])
         (set_paths rest s))
  /\ Py.getitem (paths (snd r)) (index (snd r)) = None.
Proof.
  intros Hfs Hrm Hne Hidx r.
  set (reported := set_messages _ (set_paths rest s)).
  assert (E : r = (Returned 1, reported)).
  { subst r. cbn [show_image].
    rewrite (@show_image_with_unreadable w _ path update_image s rest Hfs Hrm).
    fold reported.
    assert (Hc : check_for_edit false reported
                 = (Raised Py.IndexError, reported)).
    { rewrite check_for_edit_eq.
      change (paths reported) with rest. change (index reported) with (index s).
      rewrite Hidx, getitem_at_length. destruct rest; [contradiction|].
      reflexivity. }
    unfold bind at 1. unfold move_pos_with.
    unfold bind at 1, try_except at 1, bind at 1. rewrite Hc. reflexivity. }
  rewrite E. split; [reflexivity|]. cbn [snd].
  change (paths reported) with rest. change (index reported) with (index s).
  rewrite Hidx. apply getitem_at_length.
Qed.

(** When the unreadable file was the only entry, the list is empty
    afterwards and the retry reports a second message, the warning of
    [move_pos] about the index. *)
Theorem unreadable_only_entry
    (n : nat) (s : state) (path : string) (update_image : bool) :
  fs w path = Unreadable ->
  paths s = [path] ->
  num_str s = EmptyString ->
  show_image w (S n) path update_image s
  = (Returned 1,
     set_messages
       (messages s ++ ["Error: file not accessible"%string]
        ++ ["Warning: Unsupported index"%string])
       (set_paths [] s)).
Proof.
  intros Hfs Hps Hns. cbn [show_image].
  assert (Hrm : Py.remove path (paths s) = Some []).
  { rewrite Hps. cbn. rewrite String.eqb_refl. reflexivity. }
  rewrite (@show_image_with_unreadable w _ path update_image s [] Hfs Hrm).
  set (reported := set_messages _ (set_paths [] s)).
  unfold bind at 1. unfold move_pos_with.
  unfold bind at 1, try_except at 1, bind at 1.
  rewrite check_for_edit_eq. change (paths reported) with (@nil string).
  cbn [ret]. unfold bind at 1, get at 1. unfold bind at 1, get_pos, get at 1.
  unfold bind at 1, get at 1. change (num_str reported) with (num_str s).
  rewrite Hns. cbn [nonempty]. unfold bind at 1, ret at 1.
  unfold bind at 1, try_except at 1. cbn.
  rewrite <- app_assoc. reflexivity.
Qed.

End LastEntry.

Lemma unreadable_last_entry_witness :
  Py.getitem
    (paths (snd (show_image Demo.desk 1 "x.jpg" true Demo.last_gone)))
    (index (snd (show_image Demo.desk 1 "x.jpg" true Demo.last_gone)))
  = None.
Proof.
  refine (proj2 (@unreadable_last_entry Demo.desk 0 Demo.last_gone "x.jpg"
                   ["a.jpg"%string] true _ _ _ _)).
  - reflexivity.
  - reflexivity.
  - discriminate.
  - reflexivity.
Defined.

Lemma unreadable_only_entry_witness :
  paths (snd (show_image Demo.desk 1 "x.jpg" true Demo.only_gone)) = [].
Proof.
  rewrite (@unreadable_only_entry Demo.desk 0 Demo.only_gone "x.jpg" true);
    reflexivity.
Defined.

(** * Navigation: what is shown, and paths that fail *)

(** ** [show_image] on a file that decodes *)

Section Halting.

Variable w : world.
Variable retry : bool -> bool -> M (option bool).






End Halting.

Section ShowReturns.

Variable w : world.


End ShowReturns.

Section Shown.

Variable w : world.













End Shown.

(** ** The step [move_index] takes *)

Section Stepping.

Variable w : world.


Lemma effective_step_plain (forward key : bool) (delta : Z) (s : state) :
  key && nonempty (num_str s) = false ->
  effective_step forward key delta s
  = Some (if forward then delta else delta * -1).
Proof. intros H. unfold effective_step. rewrite H. reflexivity. Qed.


End Stepping.

Section Outcome.

Variable w : world.


End Outcome.



(** ** A path that is gone or cannot be loaded *)

Section Gone.

Variable w : world.





End Gone.




(** * Properties of the file actions *)

(** ** The tests on one file *)

Section Tests.

Variable os : Os.t.

Lemma is_image_supported (f : string) :
  is_image os f = Os.Ok (supported os f).
Proof.
  unfold supported, is_image, Os.try_except_on, Os.bind, Os.ret.
  unfold Os.get_file_info.
  destruct (Os.file_info os _) as [[i|]|]; reflexivity.
Qed.

Lemma remove_unsupported_eq (l : list string) :
  remove_unsupported os l = Os.Ok (filter (supported os) l).
Proof.
  induction l as [|p l IH]; [reflexivity|].
  cbn [remove_unsupported filter]. rewrite is_image_supported, IH.
  cbn [Os.bind Os.ret]. destruct (supported os p); reflexivity.
Qed.

(** A file that [is_animation] or [is_svg] reports as such is one
    that [is_image] accepts. *)
Theorem animation_and_svg_are_images (f : string) :
  is_animation os f = Os.Ok true \/ is_svg os f = Os.Ok true ->
  is_image os f = Os.Ok true.
Proof.
  unfold is_animation, is_svg, is_image, Os.try_except_on, Os.bind, Os.ret.
  unfold Os.get_file_info.
  destruct (Os.file_info os _) as [[i|]|].
  - intros _. reflexivity.
  - intros [H|H]; discriminate H.
  - intros [H|H]; discriminate H.
Qed.

(** [edit_supported] has no answer for a file that [is_image]
    turns down: where [is_image] returns False, [edit_supported] raises
    AttributeError (no format was found) or UnicodeEncodeError (the name
    cannot be encoded), and never returns False. *)
Theorem edit_supported_raises_off_images (f : string) :
  is_image os f = Os.Ok false ->
  edit_supported os f = Os.Raise Os.AttributeError
  \/ edit_supported os f = Os.Raise Os.UnicodeEncodeError.
Proof.
  unfold edit_supported, is_image, Os.try_except_on, Os.bind, Os.ret.
  unfold Os.get_file_info.
  destruct (Os.file_info os _) as [[i|]|].
  - discriminate.
  - intros _. left. reflexivity.
  - intros _. right. reflexivity.
Qed.

End Tests.

Lemma animation_and_svg_are_images_witness :
  is_image Demo.home "b.gif" = Os.Ok true.
Proof.
  apply animation_and_svg_are_images. left. reflexivity.
Defined.

Lemma edit_supported_raises_off_images_witness :
  edit_supported Demo.home "notes.txt" = Os.Raise Os.AttributeError
  \/ edit_supported Demo.home "notes.txt" = Os.Raise Os.UnicodeEncodeError.
Proof.
  apply edit_supported_raises_off_images. reflexivity.
Defined.

(** ** Looking a path up in the list *)

Lemma list_in_In (x : string) (l : list string) :
  Os.list_in x l = true <-> In x l.
Proof.
  unfold Os.list_in. rewrite existsb_exists. split.
  - intros [y [Hy E]]. apply String.eqb_eq in E. subst y. exact Hy.
  - intros H. exists x. split; [exact H|apply String.eqb_refl].
Qed.

Lemma list_index_absent (x : string) (l : list string) :
  ~ In x l -> Os.list_index x l = None.
Proof.
  induction l as [|y l IH]; intros H; [reflexivity|].
  cbn [Os.list_index]. destruct (String.eqb_spec y x) as [->|N].
  - exfalso. apply H. left. reflexivity.
  - rewrite IH; [reflexivity|]. intros Hin. apply H. right. exact Hin.
Qed.

Lemma list_index_first (x : string) (l : list string) :
  In x l ->
  exists i, Os.list_index x l = Some i
            /\ nth_error l i = Some x
            /\ forall j, (j < i)%nat -> nth_error l j <> Some x.
Proof.
  induction l as [|y l IH]; intros H; [destruct H|].
  cbn [Os.list_index]. destruct (String.eqb_spec y x) as [->|N].
  - exists O. split; [reflexivity|]. split; [reflexivity|].
    intros j Hj. inversion Hj.
  - destruct H as [H|H]; [contradiction|].
    destruct (IH H) as [i [Hi [Hn Hf]]]. exists (S i).
    rewrite Hi. split; [reflexivity|]. split; [exact Hn|].
    intros [|j] Hj.
    + cbn. congruence.
    + cbn. apply Hf. apply Nat.succ_lt_mono. exact Hj.
Qed.

(** ** [populate] *)

Section Populate.

Variable os : Os.t.

(** The arguments after the special treatment of a single one. *)
Let spread (args : list string) (recursive expand_single : bool)
  : list string :=
  match option_map (Os.abspath os) (hd_error args) with
  | Some first_path =>
      if Nat.eqb (length args) 1 && expand_single
      then populate_single os first_path recursive
      else args
  | None => args
  end.

Let found (args : list string) (recursive expand_single : bool)
  : list string :=
  filter (supported os)
    (add_everything os recursive (spread args recursive expand_single) []).

Let position (args : list string) (paths : list string) : nat :=
  match option_map (Os.abspath os) (hd_error args) with
  | Some first_path =>
      match Os.list_index first_path paths with
      | Some i => i
      | None => O
      end
  | None => O
  end.

Lemma populate_eq (draws : list nat) (args : list string)
    (recursive shuffle_paths expand_single : bool) :
  populate os draws args recursive shuffle_paths expand_single
  = let paths := found args recursive expand_single in
    Os.Ok (if shuffle_paths then fst (Py.shuffle draws paths) else paths,
           position args paths,
           if shuffle_paths then snd (Py.shuffle draws paths) else draws).
Proof.
  unfold populate, found, position, spread.
  rewrite remove_unsupported_eq. cbn [Os.bind].
  set (paths := filter _ _).
  assert (E : match option_map (Os.abspath os) (hd_error args) with
              | Some first_path =>
                  if Os.list_in first_path paths
                  then Os.or_raise Os.ValueError
                         (Os.list_index first_path paths)
                  else Os.ret O
              | None => Os.ret O
              end
              = Os.Ok match option_map (Os.abspath os) (hd_error args) with
                      | Some first_path =>
                          match Os.list_index first_path paths with
                          | Some i => i
                          | None => O
                          end
                      | None => O
                      end).
  { destruct (option_map _ _) as [fp|]; [|reflexivity].
    destruct (Os.list_in fp paths) eqn:Hin.
    - apply list_in_In in Hin.
      destruct (list_index_first _ _ Hin) as [i [Hi _]].
      rewrite Hi. reflexivity.
    - rewrite list_index_absent; [reflexivity|].
      intros H. apply list_in_In in H. congruence. }
  rewrite E. cbn [Os.bind]. cbv zeta.
  destruct shuffle_paths.
  - destruct (Py.shuffle draws paths). reflexivity.
  - reflexivity.
Qed.

(** [populate] returns on every list of arguments and with every
    flag: a name that GdkPixbuf cannot encode is dropped by [is_image]
    and not raised, and [paths.index] is only asked for a path that is
    in the list. *)
Theorem populate_returns (draws : list nat) (args : list string)
    (recursive shuffle_paths expand_single : bool) :
  exists paths index rest,
    populate os draws args recursive shuffle_paths expand_single
    = Os.Ok (paths, index, rest).
Proof.
  rewrite populate_eq. cbv zeta. eexists. eexists. eexists. reflexivity.
Qed.

(** Every path [populate] returns is one [is_image] accepts,
    shuffled or not. *)
Theorem populate_only_images (draws : list nat) (args : list string)
    (recursive shuffle_paths expand_single : bool)
    (paths : list string) (index : nat) (rest : list nat) :
  populate os draws args recursive shuffle_paths expand_single
  = Os.Ok (paths, index, rest) ->
  Forall (fun p => is_image os p = Os.Ok true) paths.
Proof.
  rewrite populate_eq. cbv zeta. intros H. injection H as Hp _ _.
  assert (F : Forall (fun p => is_image os p = Os.Ok true)
                (found args recursive expand_single)).
  { apply Forall_forall. intros p Hin. apply filter_In in Hin.
    rewrite is_image_supported. f_equal. apply Hin. }
  subst paths. destruct shuffle_paths; [|exact F].
  apply Forall_forall. intros p Hin.
  rewrite Forall_forall in F. apply F.
  apply (Permutation_in p (shuffle_perm draws _)). exact Hin.
Qed.

(** The index [populate] returns is a position of the list it
    returns whenever that list is not empty, and 0 when it is empty. *)
Theorem populate_index_in_range (draws : list nat) (args : list string)
    (recursive shuffle_paths expand_single : bool)
    (paths : list string) (index : nat) (rest : list nat) :
  populate os draws args recursive shuffle_paths expand_single
  = Os.Ok (paths, index, rest) ->
  (index < length paths)%nat \/ (paths = [] /\ index = O).
Proof.
  rewrite populate_eq. cbv zeta. intros H. injection H as Hp Hi _.
  set (l := found args recursive expand_single) in *.
  assert (L : length paths = length l).
  { subst paths. destruct shuffle_paths; [apply shuffle_length|reflexivity]. }
  assert (B : (index < length l)%nat \/ index = O).
  { subst index. unfold position.
    destruct (option_map _ _) as [fp|]; [|right; reflexivity].
    destruct (Os.list_index fp l) as [i|] eqn:Hi; [|right; reflexivity].
    left. destruct (in_dec string_dec fp l) as [Hin|Hn].
    - destruct (list_index_first _ _ Hin) as [i' [Hi' [Hn _]]].
      assert (i' = i) by congruence. subst i'.
      apply nth_error_Some. congruence.
    - rewrite (list_index_absent _ _ Hn) in Hi. discriminate. }
  destruct paths as [|p paths'].
  - right. split; [reflexivity|].
    destruct B as [B|B]; [|exact B]. rewrite <- L in B. inversion B.
  - left. destruct B as [B|B]; [rewrite L; exact B|].
    rewrite B. cbn. apply Nat.lt_0_succ.
Qed.

(** Without shuffling, the index points at the first given path
    (made absolute) when that path is in the returned list, at its
    first occurrence; it is 0 when the path is not in the list. *)
Theorem populate_index_points_at_first_path (draws : list nat)
    (first : string) (others : list string) (recursive expand_single : bool)
    (paths : list string) (index : nat) (rest : list nat) :
  populate os draws (first :: others) recursive false expand_single
  = Os.Ok (paths, index, rest) ->
  (In (Os.abspath os first) paths ->
   nth_error paths index = Some (Os.abspath os first)
   /\ forall j, (j < index)%nat ->
                nth_error paths j <> Some (Os.abspath os first))
  /\ (~ In (Os.abspath os first) paths -> index = O).
Proof.
  rewrite populate_eq. cbv zeta. intros H. injection H as Hp Hi _.
  subst paths. unfold position in Hi. cbn [hd_error option_map] in Hi.
  split.
  - intros Hin. destruct (list_index_first _ _ Hin) as [i [E [Hn Hf]]].
    rewrite E in Hi. subst i. split; assumption.
  - intros Hn. rewrite (list_index_absent _ _ Hn) in Hi. symmetry. exact Hi.
Qed.

(** [shuffle_paths] changes the order of the list and nothing
    else: the shuffled call returns a permutation of what the unshuffled
    call returns, with the same index, which was computed before the
    shuffle. *)
Theorem populate_shuffle_only_reorders (draws : list nat)
    (args : list string) (recursive expand_single : bool)
    (paths : list string) (index : nat) (rest : list nat) :
  populate os draws args recursive false expand_single
  = Os.Ok (paths, index, rest) ->
  exists shuffled rest',
    populate os draws args recursive true expand_single
    = Os.Ok (shuffled, index, rest')
    /\ Permutation shuffled paths.
Proof.
  rewrite !populate_eq. cbv zeta. intros H. injection H as Hp Hi _.
  subst paths index. eexists. eexists. split; [reflexivity|].
  apply shuffle_perm.
Qed.

Lemma add_everything_app (recursive : bool) (pre post acc : list string) :
  add_everything os recursive (pre ++ post) acc
  = add_everything os recursive post (add_everything os recursive pre acc).
Proof. unfold add_everything. apply fold_left_app. Qed.

(** With [recursive], a directory among the arguments replaces
    everything gathered from the arguments before it: the list returned
    is the one returned without those earlier arguments. *)
Theorem populate_directory_discards_earlier (draws : list nat)
    (pre : list string) (dir : string) (post : list string)
    (shuffle_paths : bool)
    (paths : list string) (index : nat) (rest : list nat) :
  Os.isfile os (Os.abspath os dir) = false ->
  Os.isdir os (Os.abspath os dir) = true ->
  populate os draws (pre ++ dir :: post) true shuffle_paths false
  = Os.Ok (paths, index, rest) ->
  exists index',
    populate os draws (dir :: post) true shuffle_paths false
    = Os.Ok (paths, index', rest).
Proof.
  intros Hf Hd. rewrite !populate_eq. cbv zeta. intros H.
  injection H as Hp _ Hr.
  assert (E : found (pre ++ dir :: post) true false
              = found (dir :: post) true false).
  { unfold found, spread. rewrite !andb_false_r.
    assert (S1 : forall l : list string,
               match option_map (Os.abspath os) (hd_error l) with
               | Some _ => l
               | None => l
               end = l).
    { intros l. destruct (option_map _ _); reflexivity. }
    rewrite !S1. rewrite add_everything_app.
    unfold add_everything at 1 3. cbn [fold_left].
    rewrite Hf, Hd. reflexivity. }
  rewrite E in Hp, Hr. eexists. rewrite Hp, Hr. reflexivity.
Qed.

Lemma add_everything_no_files (args acc : list string) :
  Forall (fun a => Os.isfile os (Os.abspath os a) = false) args ->
  add_everything os false args acc = acc.
Proof.
  unfold add_everything. revert acc.
  induction args as [|a args IH]; intros acc H; [reflexivity|].
  inversion H as [|x l Ha Hl]; subst. cbn [fold_left].
  rewrite Ha, andb_false_r. apply IH. exact Hl.
Qed.

(** Without [recursive], arguments none of which is a file give
    the empty list and index 0, and the random generator is not used:
    a directory is only searched with [recursive]. *)
Theorem populate_without_files (draws : list nat) (args : list string)
    (shuffle_paths expand_single : bool) :
  Forall (fun a => Os.isfile os (Os.abspath os a) = false) args ->
  populate os draws args false shuffle_paths expand_single
  = Os.Ok ([], O, draws).
Proof.
  intros H. rewrite populate_eq. cbv zeta.
  assert (E : found args false expand_single = []).
  { unfold found, spread.
    destruct args as [|a args']; [reflexivity|].
    cbn [hd_error option_map].
    destruct (Nat.eqb (length (a :: args')) 1 && expand_single).
    - unfold populate_single. inversion H as [|x l Ha Hl]; subst.
      rewrite Ha, andb_false_r. reflexivity.
    - rewrite add_everything_no_files by exact H. reflexivity. }
  rewrite E. unfold position.
  destruct (option_map _ _); destruct shuffle_paths; reflexivity.
Qed.

Lemma add_everything_flat (args acc : list string) :
  add_everything os false args acc
  = acc ++ filter (Os.isfile os) (map (Os.abspath os) args).
Proof.
  unfold add_everything. revert acc.
  induction args as [|a args IH]; intros acc.
  - cbn. rewrite app_nil_r. reflexivity.
  - cbn [fold_left map filter]. rewrite andb_false_r.
    destruct (Os.isfile os (Os.abspath os a)).
    + rewrite IH, <- app_assoc. reflexivity.
    + apply IH.
Qed.

(** A single file given without [recursive] and without
    shuffling is expanded to the files of its directory, and the index
    returned points at that file: provided the file is an image and the
    listing of its directory has a name that leads back to it. *)
Theorem populate_single_file_opens_at_it (draws : list nat)
    (arg directory name : string) :
  Os.isfile os (Os.abspath os arg) = true ->
  is_image os (Os.abspath os arg) = Os.Ok true ->
  directory = (if nonempty (Os.dirname (Os.abspath os arg))
               then Os.dirname (Os.abspath os arg) else "./"%string) ->
  In name (Os.listdir_wrapper os directory) ->
  Os.abspath os (Os.join directory name) = Os.abspath os arg ->
  exists paths index,
    populate os draws [arg] false false true = Os.Ok (paths, index, draws)
    /\ nth_error paths index = Some (Os.abspath os arg).
Proof.
  intros Hf Hi Hd Hn Hj. rewrite populate_eq. cbv zeta.
  set (l := found [arg] false true).
  assert (Hin : In (Os.abspath os arg) l).
  { unfold l, found, spread. cbn [hd_error option_map length Nat.eqb andb].
    unfold populate_single. rewrite Hf, <- Hd.
    rewrite add_everything_flat. cbn [app].
    apply filter_In. split.
    - apply filter_In. split; [|exact Hf].
      rewrite <- Hj. apply in_map. apply in_map. exact Hn.
    - rewrite is_image_supported in Hi. congruence. }
  destruct (list_index_first _ _ Hin) as [i [E [Hnth _]]].
  exists l, i. split; [|exact Hnth].
  unfold position. cbn [hd_error option_map]. rewrite E. reflexivity.
Qed.

End Populate.

Lemma populate_only_images_witness :
  Forall (fun p => is_image Demo.home p = Os.Ok true)
    ["/home/u/a.jpg"; "/home/u/b.gif"]%string.
Proof.
  apply (@populate_only_images Demo.home [] ["a.jpg"%string]
           false false true _ O []).
  reflexivity.
Defined.

Lemma populate_index_in_range_witness :
  (1 < length ["/home/u/a.jpg"; "/home/u/b.gif"]%string)%nat
  \/ (["/home/u/a.jpg"; "/home/u/b.gif"]%string = [] /\ 1%nat = O).
Proof.
  apply (@populate_index_in_range Demo.home [3%nat] ["b.gif"%string]
           false true true _ 1%nat []).
  reflexivity.
Defined.

Lemma populate_index_points_at_first_path_witness :
  nth_error ["/home/u/a.jpg"; "/home/u/b.gif"]%string 1
  = Some (Os.abspath Demo.home "b.gif").
Proof.
  refine (proj1 (proj1 (@populate_index_points_at_first_path Demo.home []
            "b.gif"%string [] false true _ 1%nat [] _) _)).
  - reflexivity.
  - right. left. reflexivity.
Defined.

Lemma populate_shuffle_only_reorders_witness :
  exists shuffled rest',
    populate Demo.home [0%nat] ["b.gif"%string] false true true
    = Os.Ok (shuffled, 1%nat, rest')
    /\ Permutation shuffled ["/home/u/a.jpg"; "/home/u/b.gif"]%string.
Proof.
  apply (@populate_shuffle_only_reorders Demo.home [0%nat] ["b.gif"%string]
           false true _ 1%nat [0%nat]).
  reflexivity.
Defined.

Lemma populate_directory_discards_earlier_witness :
  exists index',
    populate Demo.home [] ["pics"; "b.gif"]%string true false false
    = Os.Ok (["/home/u/pics/c.png"; "/home/u/b.gif"]%string, index', []).
Proof.
  apply (@populate_directory_discards_earlier Demo.home []
           ["a.jpg"%string] "pics"%string ["b.gif"%string] false _ O []).
  - reflexivity.
  - reflexivity.
  - reflexivity.
Defined.

Lemma populate_without_files_witness :
  populate Demo.home [5%nat] ["pics"; "nowhere"]%string false true true
  = Os.Ok ([], O, [5%nat]).
Proof.
  apply populate_without_files.
  repeat constructor.
Defined.

Lemma populate_single_file_opens_at_it_witness :
  exists paths index,
    populate Demo.home [] ["b.gif"%string] false false true
    = Os.Ok (paths, index, [])
    /\ nth_error paths index = Some (Os.abspath Demo.home "b.gif").
Proof.
  apply (@populate_single_file_opens_at_it Demo.home [] "b.gif"%string
           "/home/u"%string "b.gif"%string).
  - reflexivity.
  - reflexivity.
  - reflexivity.
  - right. left. reflexivity.
  - reflexivity.
Defined.
